(** * ntfy: the SMTP backend (server/smtp_server.go)

    A shallow embedding of [smtpBackend] and [smtpSession]: the recipient
    resolver [Rcpt], the body extractor [readMailBody], the message assembly
    and hand-over in [Data], [Reset], and the failure accounting of
    [withFailCount].  Functions of Go's standard library that parse mail
    syntax are an interface ([Env]); the small functions of package
    [strings] are written out.  Calls on a session are taken one at a time,
    as the two mutexes serialise them; a call is a function from the store
    before it to its result and the store after it. *)

From Stdlib Require Import ZArith Lia Ascii String.
From stdpp Require Import base option list strings gmap.

Local Open Scope Z_scope.

(** ** Go strings: byte sequences *)

(** [len(s)] *)
Definition len (s : string) : Z := Z.of_nat (String.length s).

(** [s[n:]] and [s[:n]] for an index already known to be in range. *)
Fixpoint slice_from (n : nat) (s : string) : string :=
  match n, s with
  | O, _ => s
  | S n', String _ s' => slice_from n' s'
  | S _, EmptyString => EmptyString
  end.

Fixpoint slice_to (n : nat) (s : string) : string :=
  match n, s with
  | O, _ => EmptyString
  | S n', String c s' => String c (slice_to n' s')
  | S _, EmptyString => EmptyString
  end.

(** [s[:n]] with Go's bounds check: [None] is the run-time panic
    "slice bounds out of range". *)
Definition slice_prefix (s : string) (n : Z) : option string :=
  if (n <? 0) || (len s <? n) then None else Some (slice_to (Z.to_nat n) s).

Module strings.

(** [len(s) >= len(prefix) && s[0:len(prefix)] == prefix] *)
Definition HasPrefix (s prefix : string) : bool :=
  (len prefix <=? len s)
  && String.eqb (slice_to (String.length prefix) s) prefix.

(** [len(s) >= len(suffix) && s[len(s)-len(suffix):] == suffix] *)
Definition HasSuffix (s suffix : string) : bool :=
  (len suffix <=? len s)
  && String.eqb (slice_from (String.length s - String.length suffix) s) suffix.

Definition TrimPrefix (s prefix : string) : string :=
  if HasPrefix s prefix then slice_from (String.length prefix) s else s.

Definition TrimSuffix (s suffix : string) : string :=
  if HasSuffix s suffix
  then slice_to (String.length s - String.length suffix) s else s.

(** [unicode.IsSpace] on the UTF-8 encoding: the number of bytes of the
    white-space rune that starts [s], or [0] when [s] starts with none.
    The runes are U+0009..U+000D, U+0020, U+0085, U+00A0, U+1680,
    U+2000..U+200A, U+2028, U+2029, U+202F, U+205F and U+3000. *)
Definition space_rune (bs : list N) : nat :=
  match bs with
  | (9 | 10 | 11 | 12 | 13 | 32)%N :: _ => 1
  | 194%N :: (133 | 160)%N :: _ => 2
  | 225%N :: 154%N :: 128%N :: _ => 3
  | 226%N :: 128%N :: b :: _ =>
      if ((128 <=? b) && (b <=? 138))%N || (b =? 168)%N || (b =? 169)%N
         || (b =? 175)%N
      then 3 else 0
  | 226%N :: 129%N :: 159%N :: _ => 3
  | 227%N :: 128%N :: 128%N :: _ => 3
  | _ => 0
  end%nat.

(** The same test on the last rune, read backwards. *)
Definition space_rune_last (rbs : list N) : nat :=
  match rbs with
  | (9 | 10 | 11 | 12 | 13 | 32)%N :: _ => 1
  | (133 | 160)%N :: 194%N :: _ => 2
  | 128%N :: 154%N :: 225%N :: _ => 3
  | b :: 128%N :: 226%N :: _ =>
      if ((128 <=? b) && (b <=? 138))%N || (b =? 168)%N || (b =? 169)%N
         || (b =? 175)%N
      then 3 else 0
  | 159%N :: 129%N :: 226%N :: _ => 3
  | 128%N :: 128%N :: 227%N :: _ => 3
  | _ => 0
  end%nat.

(** Strip leading runes while [test] recognises one; [fuel] bounds the
    number of runes by the number of bytes. *)
Fixpoint strip (test : list N -> nat) (fuel : nat) (bs : list N) : list N :=
  match fuel with
  | O => bs
  | S fuel' =>
      match test bs with
      | O => bs
      | k => strip test fuel' (drop k bs)
      end
  end.

Definition bytes_of (s : string) : list N :=
  map N_of_ascii (list_ascii_of_string s).

Definition of_bytes (bs : list N) : string :=
  string_of_list_ascii (map ascii_of_N bs).

(** [strings.TrimSpace]: all leading and trailing white space removed. *)
Definition TrimSpace (s : string) : string :=
  let bs := bytes_of s in
  let bs := strip space_rune (length bs) bs in
  let rbs := rev bs in
  of_bytes (rev (strip space_rune_last (length rbs) rbs)).

End strings.

Import strings.

(** ** Errors and results *)

(** Go's [error] values: the five sentinels declared by the file, and the
    errors made by the standard library, which this file only passes on. *)
Inductive error : Type :=
| errInvalidDomain
| errInvalidAddress
| errInvalidTopic
| errTooManyRecipients
| errUnsupportedContentType
| io_EOF
| libError (msg : string).

(** A Go pair [(value, err)] of a library call, read the way the callers
    here read it: the value only when [err == nil]. *)
Inductive result (A : Type) : Type :=
| Ok (a : A)
| Err (e : error).
Arguments Ok {A} a.
Arguments Err {A} e.

(** ** Data *)

(** [mail.Address] *)
Record Address := { Name : string; Addr : string }.

(** The fields of [Config] the backend reads. *)
Record Config := {
  SMTPServerDomain : string;
  SMTPServerAddrPrefix : string;
  MessageLimit : Z
}.

(** Modelled from the spec: the [message] struct is declared outside
    smtp_server.go.  The spec's OutboundMessage has a topic, a title and a
    message. *)
Record message := { Topic : string; Title : string; Message : string }.

(** Modelled from the spec: [newDefaultMessage] is defined outside
    smtp_server.go.  A new message carries the given topic and body; its
    title is set later, from the subject. *)
Definition newDefaultMessage (topic msg : string) : message :=
  {| Topic := topic; Title := ""; Message := msg |}.

(** An [io.Reader], by what [io.ReadAll] gets out of it: the bytes read and
    the error that ended the read, [None] at a clean end of input. *)
Record Reader := { rd_bytes : string; rd_err : option error }.

Definition io_ReadAll (r : Reader) : string * option error :=
  (rd_bytes r, rd_err r).

(** [textproto.MIMEHeader], a map from canonical keys to their values. *)
Abbreviation MIMEHeader := (gmap string (list string)).

(** [Header.Get] for a key already in canonical form, as "Content-Type" and
    "Subject" are. *)
Definition Header_Get (h : MIMEHeader) (key : string) : string :=
  match h !! key with
  | Some (v :: _) => v
  | _ => ""
  end.

(** [mail.Message] *)
Record mail_Message := { Header : MIMEHeader; Body : Reader }.

(** [multipart.Part] *)
Record Part := { PartHeader : MIMEHeader; PartBody : Reader }.

(** A [multipart.Reader], by the results of its successive [NextPart]
    calls: the parts it yields, then the error that ends the iteration
    ([io.EOF] after the closing boundary). *)
Record multipart_Reader := { mr_parts : list Part; mr_end : error }.

(** [params["boundary"]] on a Go map: the zero value when absent. *)
Definition param (params : gmap string string) (key : string) : string :=
  default "" (params !! key).

(** What smtp_server.go calls but does not define: Go's mail and MIME
    parsers and the topic pattern of the server. *)
Class Env := {
  mail_ParseAddressList : string -> result (list Address);
  mail_ReadMessage : string -> result mail_Message;
  mime_ParseMediaType : string -> result (string * gmap string string);
  multipart_NewReader : Reader -> string -> multipart_Reader;
  mime_DecodeHeader : string -> result string;
  topicRegex_MatchString : string -> bool
}.

(** [subscriber], the publish callback: the error it answers with. *)
Definition subscriber := message -> option error.

Record smtpBackend := {
  config : Config;
  sub : subscriber;
  success : Z;
  failure : Z
}.

(** The session's own field; its backend is the one of the store. *)
Record smtpSession := { topic : string }.

(** One session, the backend it points to, and the messages handed to
    [sub] so far, newest first. *)
Record Store := {
  backend : smtpBackend;
  session : smtpSession;
  published : list message
}.

(** ** Effects *)

(** [int64] increment *)
Definition int64_min : Z := - 2 ^ 63.
Definition int64_max : Z := 2 ^ 63 - 1.
Definition wrap64 (z : Z) : Z := (z - int64_min) mod 2 ^ 64 + int64_min.
Definition incr64 (z : Z) : Z := wrap64 (z + 1).

Definition set_topic (t : string) (st : Store) : Store :=
  {| backend := backend st; session := {| topic := t |};
     published := published st |}.

Definition set_backend (b : smtpBackend) (st : Store) : Store :=
  {| backend := b; session := session st; published := published st |}.

Definition incr_success (st : Store) : Store :=
  let b := backend st in
  set_backend {| config := config b; sub := sub b;
                 success := incr64 (success b); failure := failure b |} st.

Definition incr_failure (st : Store) : Store :=
  let b := backend st in
  set_backend {| config := config b; sub := sub b;
                 success := success b; failure := incr64 (failure b) |} st.

Definition log_publish (m : message) (st : Store) : Store :=
  {| backend := backend st; session := session st;
     published := m :: published st |}.

(** A call either returns, with a value and the store it leaves, or
    panics. *)
Inductive outcome (A : Type) : Type :=
| Returns (a : A) (st : Store)
| Panics (st : Store).
Arguments Returns {A} a st.
Arguments Panics {A} st.

Definition M (A : Type) : Type := Store -> outcome A.

Definition ret {A} (a : A) : M A := fun st => Returns a st.

Definition bind {A B} (m : M A) (k : A -> M B) : M B := fun st =>
  match m st with
  | Returns a st' => k a st'
  | Panics st' => Panics st'
  end.

(** The body of a Go closure [func() error]: [return err] ends it. *)
Abbreviation fn_error := (M (option error)).

Definition return_err (e : error) : fn_error := ret (Some e).
Definition return_nil : fn_error := ret None.

(** [v, err := call; if err != nil { return err }] *)
Definition try {A} (r : result A) (k : A -> fn_error) : fn_error :=
  match r with
  | Err e => return_err e
  | Ok a => k a
  end.

(** The same for a Go pair kept as a pair. *)
Definition try_pair {A} (r : A * option error) (k : A -> fn_error) : fn_error :=
  match r with
  | (_, Some e) => return_err e
  | (a, None) => k a
  end.

Definition panic {A} : M A := fun st => Panics st.

Declare Scope go_scope.
Delimit Scope go_scope with go.
Notation "x <- r ;; k" := (try r (fun x => k))
  (at level 100, r at next level, right associativity) : go_scope.
Notation "x <~ r ;; k" := (try_pair r (fun x => k))
  (at level 100, r at next level, right associativity) : go_scope.
Notation "'when' b 'return' e ;; k" := (if b then return_err e else k)
  (at level 100, b at next level, e at next level, right associativity) : go_scope.

(** ** The backend and the session *)

Definition newMailBackend (conf : Config) (sub : subscriber) : smtpBackend :=
  {| config := conf; sub := sub; success := 0; failure := 0 |}.

(** [Login] and [AnonymousLogin] answer a fresh session on the backend. *)
Definition Login (b : smtpBackend) (username password : string)
  : smtpSession * option error :=
  ({| topic := "" |}, None).

Definition AnonymousLogin (b : smtpBackend) : smtpSession * option error :=
  ({| topic := "" |}, None).

(** The store right after a login on a new backend. *)
Definition new_store (conf : Config) (sub : subscriber) : Store :=
  {| backend := newMailBackend conf sub;
     session := fst (AnonymousLogin (newMailBackend conf sub));
     published := [] |}.

Definition Counts (b : smtpBackend) : Z * Z := (success b, failure b).

Definition AuthPlain (username password : string) : fn_error := return_nil.

Definition Mail (from : string) : fn_error := return_nil.

Definition Logout : fn_error := return_nil.

(** [err := fn()], then [failure++] under the backend lock when
    [err != nil].  A panic inside [fn] leaves before the counting. *)
Definition withFailCount (fn : fn_error) : fn_error := fun st =>
  match fn st with
  | Returns err st' =>
      Returns err (match err with Some _ => incr_failure st' | None => st' end)
  | Panics st' => Panics st'
  end.

Definition Reset : M unit := fun st => Returns tt (set_topic "" st).

Section WithEnv.
Context `{Env}.
Local Open Scope go_scope.

Definition Rcpt (to : string) : fn_error :=
  withFailCount (fun st =>
    let conf := config (backend st) in
    (addressList <- mail_ParseAddressList to ;;
     match addressList with
     | [a] =>
         let to := Addr a in
         when negb (HasSuffix to ("@" +:+ SMTPServerDomain conf))
           return errInvalidDomain ;;
         let to := TrimSuffix to ("@" +:+ SMTPServerDomain conf) in
         when negb (String.eqb (SMTPServerAddrPrefix conf) "")
              && negb (HasPrefix to (SMTPServerAddrPrefix conf))
           return errInvalidAddress ;;
         let to := if String.eqb (SMTPServerAddrPrefix conf) "" then to
                   else TrimPrefix to (SMTPServerAddrPrefix conf) in
         when negb (topicRegex_MatchString to) return errInvalidTopic ;;
         fun st' => Returns None (set_topic to st')
     | _ => return_err errTooManyRecipients
     end) st).

(** The loop over [mr.NextPart()]: [parts] are the parts still to come
    and [final] the error that follows the last one. *)
Fixpoint scanParts (parts : list Part) (final : error)
  : string * option error :=
  match parts with
  | [] => ("", Some final)
  | part :: rest =>
      match mime_ParseMediaType (Header_Get (PartHeader part) "Content-Type") with
      | Err err => ("", Some err)
      | Ok (partContentType, _) =>
          if negb (String.eqb partContentType "text/plain")
          then scanParts rest final
          else
            match io_ReadAll (PartBody part) with
            | (_, Some err) => ("", Some err)
            | (body, None) => (body, None)
            end
      end
  end.

Definition readMailBody (msg : mail_Message) : string * option error :=
  match mime_ParseMediaType (Header_Get (Header msg) "Content-Type") with
  | Err err => ("", Some err)
  | Ok (contentType, params) =>
      if String.eqb contentType "text/plain" then
        match io_ReadAll (Body msg) with
        | (_, Some err) => ("", Some err)
        | (body, None) => (body, None)
        end
      else if HasPrefix contentType "multipart/" then
        let mr := multipart_NewReader (Body msg) (param params "boundary") in
        scanParts (mr_parts mr) (mr_end mr)
      else ("", Some errUnsupportedContentType)
  end.

(** [if len(body) > limit { body = body[:limit] }] *)
Definition truncate (body : string) (limit : Z) : option string :=
  if len body >? limit then slice_prefix body limit else Some body.

(** [m.Title = subject] *)
Definition with_Title (m : message) (t : string) : message :=
  {| Topic := Topic m; Title := t; Message := Message m |}.

(** [if m.Title != "" && m.Message == "" { m.Message = m.Title; m.Title = "" }] *)
Definition flip (m : message) : message :=
  if negb (String.eqb (Title m) "") && String.eqb (Message m) ""
  then {| Topic := Topic m; Title := ""; Message := Title m |}
  else m.

(** [s.backend.sub(m)] *)
Definition call_sub (m : message) : fn_error := fun st =>
  Returns (sub (backend st) m) (log_publish m st).

Definition Data (r : Reader) : fn_error :=
  withFailCount (fun st =>
    let conf := config (backend st) in
    (b <~ io_ReadAll r ;;
     msg <- mail_ReadMessage b ;;
     body <~ readMailBody msg ;;
     let body := TrimSpace body in
     match truncate body (MessageLimit conf) with
     | None => panic
     | Some body =>
         let m := newDefaultMessage (topic (session st)) body in
         let subject := TrimSpace (Header_Get (Header msg) "Subject") in
         m <- (if negb (String.eqb subject "")
               then match mime_DecodeHeader subject with
                    | Ok subject => Ok (with_Title m subject)
                    | Err err => Err err
                    end
               else Ok m) ;;
         let m := flip m in
         bind (call_sub m) (fun err =>
           match err with
           | Some err => return_err err
           | None => fun st' => Returns None (incr_success st')
           end)
     end) st).

End WithEnv.

(** ** An executable instance of [Env]

    Fragments of Go's [net/mail], [mime] and [mime/multipart], enough to
    run the session on plain messages: addresses made of atoms, with an
    optional display name and angle brackets; unfolded header lines;
    media types with token or simply quoted parameters; multipart bodies
    split at boundary lines; headers without encoded words.  Input outside
    a fragment is answered with a [libError] that says so. *)
Module Go.

Definition code (c : ascii) : N := N_of_ascii c.

Definition in_range (lo hi : N) (c : ascii) : bool :=
  ((lo <=? code c) && (code c <=? hi))%N.

Definition is_upper := in_range 65 90.
Definition is_lower := in_range 97 122.
Definition is_digit := in_range 48 57.
Definition is_alnum (c : ascii) : bool := is_upper c || is_lower c || is_digit c.
Definition is_wsp (c : ascii) : bool := (code c =? 32)%N || (code c =? 9)%N.

Definition lower (c : ascii) : ascii :=
  if is_upper c then ascii_of_N (code c + 32) else c.
Definition upper (c : ascii) : ascii :=
  if is_lower c then ascii_of_N (code c - 32) else c.

Fixpoint map_string (f : ascii -> ascii) (s : string) : string :=
  match s with
  | EmptyString => EmptyString
  | String c s' => String (f c) (map_string f s')
  end.

Fixpoint forallb_string (f : ascii -> bool) (s : string) : bool :=
  match s with
  | EmptyString => true
  | String c s' => f c && forallb_string f s'
  end.

Definition ToLower : string -> string := map_string lower.

(** [strings.Split] at one byte. *)
Fixpoint split (sep : ascii) (s : string) : list string :=
  match s with
  | EmptyString => [EmptyString]
  | String c s' =>
      if Ascii.eqb c sep then EmptyString :: split sep s'
      else match split sep s' with
           | h :: t => String c h :: t
           | [] => [String c EmptyString]
           end
  end.

(** [strings.Cut] at one byte. *)
Fixpoint cut (sep : ascii) (s : string) : option (string * string) :=
  match s with
  | EmptyString => None
  | String c s' =>
      if Ascii.eqb c sep then Some (EmptyString, s')
      else match cut sep s' with
           | Some (a, b) => Some (String c a, b)
           | None => None
           end
  end.

(** [strings.Contains] *)
Fixpoint Contains (s sub : string) : bool :=
  String.prefix sub s
  || match s with
     | EmptyString => false
     | String _ s' => Contains s' sub
     end.

Fixpoint trim_left (f : ascii -> bool) (s : string) : string :=
  match s with
  | String c s' => if f c then trim_left f s' else s
  | EmptyString => EmptyString
  end.

Fixpoint trim_right (f : ascii -> bool) (s : string) : string :=
  match s with
  | String c s' =>
      match trim_right f s' with
      | EmptyString => if f c then EmptyString else String c EmptyString
      | t => String c t
      end
  | EmptyString => EmptyString
  end.

Definition trim (f : ascii -> bool) (s : string) : string :=
  trim_right f (trim_left f s).

(** *** The topic pattern *)

(** Letters, digits, hyphen and underscore. *)
Definition topic_char (c : ascii) : bool :=
  is_alnum c || (code c =? 45)%N || (code c =? 95)%N.

(** Modelled from the spec: [topicRegex] is declared outside
    smtp_server.go; the pattern is alphanumeric plus a small set of
    punctuation, of bounded length: [^[-_A-Za-z0-9]{1,64}$]. *)
Definition topicRegex (s : string) : bool :=
  forallb_string topic_char s && (1 <=? len s) && (len s <=? 64).

(** *** net/mail: address lists *)

(** RFC 5322 [atext] *)
Definition atext (c : ascii) : bool :=
  is_alnum c
  || existsb (N.eqb (code c))
       [33; 35; 36; 37; 38; 39; 42; 43; 45; 47; 61; 63; 94; 95; 96; 123; 124; 125; 126]%N.

Definition atom (s : string) : bool :=
  negb (String.eqb s "") && forallb_string atext s.

Definition dot_atom (s : string) : bool :=
  forallb atom (split "." s).

Definition addr_spec (s : string) : result string :=
  match split "@" s with
  | [local; domain] =>
      if dot_atom local && dot_atom domain then Ok s
      else Err (libError "mail: address outside the modelled fragment")
  | _ => Err (libError "mail: missing '@' or angle-addr")
  end.

Definition phrase (s : string) : bool :=
  forallb atom (filter (fun w => w ≠ "") (split " " s)).

Definition parseAddress (s : string) : result Address :=
  match cut "<" s with
  | None =>
      match addr_spec s with
      | Ok a => Ok {| Name := ""; Addr := a |}
      | Err e => Err e
      end
  | Some (name, rest) =>
      match cut ">" rest with
      | Some (spec, EmptyString) =>
          if phrase name then
            match addr_spec spec with
            | Ok a =>
                Ok {| Name := String.concat " "
                                (filter (fun w => w ≠ "") (split " " name));
                      Addr := a |}
            | Err e => Err e
            end
          else Err (libError "mail: display name outside the modelled fragment")
      | Some _ => Err (libError "mail: expected comma")
      | None => Err (libError "mail: unclosed angle-addr")
      end
  end.

Fixpoint parseAddresses (entries : list string) : result (list Address) :=
  match entries with
  | [] => Ok []
  | e :: rest =>
      match parseAddress e, parseAddresses rest with
      | Ok a, Ok l => Ok (a :: l)
      | Err err, _ => Err err
      | _, Err err => Err err
      end
  end.

(** Entries are separated by commas; empty entries are skipped. *)
Definition ParseAddressList (s : string) : result (list Address) :=
  match filter (fun e => e ≠ "") (map (trim is_wsp) (split "," s)) with
  | [] => Err (libError "mail: no address")
  | entries => parseAddresses entries
  end.

(** *** net/mail: messages *)

Definition LF : ascii := ascii_of_N 10.
Definition CR : ascii := ascii_of_N 13.

(** The lines of [s], each with its line end. *)
Fixpoint lines (s : string) : list string :=
  match s with
  | EmptyString => []
  | String c s' =>
      if Ascii.eqb c LF then String c EmptyString :: lines s'
      else match lines s' with
           | h :: t => String c h :: t
           | [] => [String c EmptyString]
           end
  end.

(** [s] without one final line end, LF or CR LF. *)
Fixpoint chomp (s : string) : string :=
  match s with
  | EmptyString => EmptyString
  | String c EmptyString => if Ascii.eqb c LF then EmptyString else s
  | String c (String d EmptyString as s') =>
      if Ascii.eqb c CR && Ascii.eqb d LF then EmptyString
      else String c (chomp s')
  | String c s' => String c (chomp s')
  end.

(** [textproto.CanonicalMIMEHeaderKey] on keys of letters, digits and
    hyphens. *)
Fixpoint canon (up : bool) (s : string) : string :=
  match s with
  | EmptyString => EmptyString
  | String c s' =>
      String (if up then upper c else lower c) (canon (code c =? 45)%N s')
  end.

Definition CanonicalMIMEHeaderKey : string -> string := canon true.

Definition key_char (c : ascii) : bool := is_alnum c || (code c =? 45)%N.

(** One header line [Key: value]. *)
Definition header_line (line : string) : result (string * string) :=
  match cut ":" line with
  | Some (k, v) =>
      if negb (String.eqb k "") && forallb_string key_char k
      then Ok (CanonicalMIMEHeaderKey k, trim is_wsp v)
      else Err (libError "textproto: header key outside the modelled fragment")
  | None => Err (libError "malformed MIME header line")
  end.

(** [h[key] = append(h[key], value)] *)
Definition header_add (h : MIMEHeader) (kv : string * string) : MIMEHeader :=
  <[ kv.1 := default [] (h !! kv.1) ++ [kv.2] ]> h.

(** [ReadMIMEHeader]: header lines up to the blank line; the input must
    have one. *)
Fixpoint readMIMEHeader (ls : list string) (h : MIMEHeader)
  : result (MIMEHeader * list string) :=
  match ls with
  | [] => Err io_EOF
  | l :: rest =>
      if String.eqb (chomp l) "" then Ok (h, rest)
      else
        match header_line (chomp l) with
        | Ok kv => readMIMEHeader rest (header_add h kv)
        | Err e => Err e
        end
  end.

Definition bytes_Reader (s : string) : Reader :=
  {| rd_bytes := s; rd_err := None |}.

Definition ReadMessage (s : string) : result mail_Message :=
  match readMIMEHeader (lines s) ∅ with
  | Ok (h, rest) =>
      Ok {| Header := h; Body := bytes_Reader (String.concat "" rest) |}
  | Err e => Err e
  end.

(** *** mime: media types *)

(** [isTokenChar]: visible ASCII that is no tspecial. *)
Definition token_char (c : ascii) : bool :=
  in_range 33 126 c
  && negb (existsb (N.eqb (code c))
             [40; 41; 60; 62; 64; 44; 59; 58; 92; 34; 47; 91; 93; 63; 61]%N).

Definition token (s : string) : bool :=
  negb (String.eqb s "") && forallb_string token_char s.

Definition checkMediaTypeDisposition (s : string) : option error :=
  match split "/" s with
  | [typ] =>
      if token typ then None
      else if String.eqb typ "" then Some (libError "mime: no media type")
      else Some (libError "mime: expected slash after first token")
  | [typ; subtype] =>
      if negb (token typ) then
        Some (if String.eqb typ "" then libError "mime: no media type"
              else libError "mime: expected slash after first token")
      else if token subtype then None
      else Some (libError "mime: expected token after slash")
  | _ => Some (libError "mime: unexpected content after media subtype")
  end.

(** A parameter value: a token, or a quoted string without escapes. *)
Definition param_value (v : string) : option string :=
  if token v then Some v
  else match v with
       | String q v' =>
           if (code q =? 34)%N then
             match cut (ascii_of_N 34) v' with
             | Some (inner, EmptyString) =>
                 if forallb_string (fun c => negb (code c =? 92)%N) inner
                 then Some inner else None
             | _ => None
             end
           else None
       | EmptyString => None
       end.

Definition ErrInvalidMediaParameter : error :=
  libError "mime: invalid media parameter".

Fixpoint mediaParams (segs : list string) (params : gmap string string)
  : result (gmap string string) :=
  match segs with
  | [] => Ok params
  | seg :: rest =>
      let seg := TrimSpace seg in
      if String.eqb seg "" then
        match rest with [] => Ok params | _ => Err ErrInvalidMediaParameter end
      else
        match cut "=" seg with
        | Some (k, v) =>
            match token k && forallb_string (fun c => negb (code c =? 42)%N) k,
                  param_value v with
            | true, Some v =>
                match params !! ToLower k with
                | Some _ => Err (libError "mime: duplicate parameter name")
                | None => mediaParams rest (<[ToLower k := v]> params)
                end
            | _, _ => Err ErrInvalidMediaParameter
            end
        | None => Err ErrInvalidMediaParameter
        end
  end.

Definition ParseMediaType (v : string) : result (string * gmap string string) :=
  match split ";" v with
  | base :: segs =>
      let mediatype := TrimSpace (ToLower base) in
      match checkMediaTypeDisposition mediatype with
      | Some err => Err err
      | None =>
          match mediaParams segs ∅ with
          | Ok params => Ok (mediatype, params)
          | Err err => Err err
          end
      end
  | [] => Err (libError "mime: no media type")
  end.

(** [WordDecoder.DecodeHeader]: a header without ["=?"] is returned as
    it is. *)
Definition DecodeHeader (header : string) : result string :=
  if Contains header "=?"
  then Err (libError "mime: encoded words are outside the modelled fragment")
  else Ok header.

(** *** mime/multipart *)

Inductive delimiter := NoDelimiter | PartDelimiter | FinalDelimiter.

(** A boundary line is ["--" boundary] and a line end, the final one
    ["--" boundary "--"]; blanks after either are skipped. *)
Definition delimiter_of (boundary line : string) : delimiter :=
  let text := trim_right is_wsp (chomp line) in
  if String.eqb text ("--" +:+ boundary +:+ "--") then FinalDelimiter
  else if String.eqb text ("--" +:+ boundary)
          && negb (String.eqb (chomp line) line)
  then PartDelimiter
  else NoDelimiter.

Inductive scan_state :=
| Preamble
| InHeader (h : MIMEHeader)
| InBody (h : MIMEHeader) (body : string).

Definition ErrUnexpectedEOF : error := libError "unexpected EOF".
Definition ErrNextPartEOF : error := libError "multipart: NextPart: EOF".

(** The parts between boundary lines.  The line end before a boundary
    line belongs to the boundary.  An input that stops before the final
    boundary ends the iteration with an error. *)
Fixpoint scan (boundary : string) (st : scan_state) (ls : list string)
  : list Part * error :=
  match ls with
  | [] =>
      match st with
      | InBody h body =>
          ([{| PartHeader := h;
               PartBody := {| rd_bytes := body; rd_err := Some ErrUnexpectedEOF |} |}],
           ErrNextPartEOF)
      | _ => ([], ErrNextPartEOF)
      end
  | l :: rest =>
      match st with
      | Preamble =>
          match delimiter_of boundary l with
          | PartDelimiter => scan boundary (InHeader ∅) rest
          | FinalDelimiter => ([], io_EOF)
          | NoDelimiter => scan boundary Preamble rest
          end
      | InHeader h =>
          if String.eqb (chomp l) "" then scan boundary (InBody h "") rest
          else
            match header_line (chomp l) with
            | Ok kv => scan boundary (InHeader (header_add h kv)) rest
            | Err e => ([], e)
            end
      | InBody h body =>
          let part := {| PartHeader := h; PartBody := bytes_Reader (chomp body) |} in
          match delimiter_of boundary l with
          | NoDelimiter => scan boundary (InBody h (body +:+ l)) rest
          | PartDelimiter =>
              let '(parts, e) := scan boundary (InHeader ∅) rest in
              (part :: parts, e)
          | FinalDelimiter => ([part], io_EOF)
          end
      end
  end.

Definition NewReader (r : Reader) (boundary : string) : multipart_Reader :=
  let '(parts, e) := scan boundary Preamble (lines (rd_bytes r)) in
  {| mr_parts := parts; mr_end := e |}.

Definition env : Env := {|
  mail_ParseAddressList := ParseAddressList;
  mail_ReadMessage := ReadMessage;
  mime_ParseMediaType := ParseMediaType;
  multipart_NewReader := NewReader;
  mime_DecodeHeader := DecodeHeader;
  topicRegex_MatchString := topicRegex
|}.

(** *** Writing messages down *)

Definition CRLF : string := String CR (String LF EmptyString).

(** The text of a message: header lines, a blank line, the body. *)
Definition mail_text (headers : list (string * string)) (body : string) : string :=
  String.concat ""
    (map (fun kv => kv.1 +:+ ": " +:+ kv.2 +:+ CRLF) headers)
  +:+ CRLF +:+ body.

(** The text of a multipart body: each part after a boundary line, the
    final boundary at the end. *)
Definition multipart_text (boundary : string) (parts : list string) : string :=
  String.concat ""
    (map (fun p => "--" +:+ boundary +:+ CRLF +:+ p +:+ CRLF) parts)
  +:+ "--" +:+ boundary +:+ "--" +:+ CRLF.

End Go.

(** * Vocabulary of the statements *)

(** The store a call leaves, however it ends. *)
Definition store_after {A} (o : outcome A) : Store :=
  match o with
  | Returns _ st => st
  | Panics st => st
  end.

Section Vocabulary.
Context `{Env}.

(** [to] parses to exactly one address, and that address is
    [<prefix><topic>@<domain>] with [topic] matching the pattern. *)
Definition resolves (conf : Config) (to topic : string) : Prop :=
  exists a,
    mail_ParseAddressList to = Ok [a]
    /\ Addr a = SMTPServerAddrPrefix conf +:+ topic +:+ "@" +:+ SMTPServerDomain conf
    /\ topicRegex_MatchString topic = true.

(** The recipient string itself is [<prefix><topic>@<domain>]. *)
Definition written_as (conf : Config) (to topic : string) : Prop :=
  to = SMTPServerAddrPrefix conf +:+ topic +:+ "@" +:+ SMTPServerDomain conf
  /\ topicRegex_MatchString topic = true.

(** The five error kinds of the resolver. *)
Definition resolver_error (to : string) (e : error) : Prop :=
  mail_ParseAddressList to = Err e
  \/ e = errTooManyRecipients
  \/ e = errInvalidDomain
  \/ e = errInvalidAddress
  \/ e = errInvalidTopic.

(** The media type of a header's Content-Type. *)
Definition media_type (h : MIMEHeader) (ct : string) : Prop :=
  exists params,
    mime_ParseMediaType (Header_Get h "Content-Type") = Ok (ct, params).

(** A part that has a media type other than text/plain. *)
Definition other_part (p : Part) : Prop :=
  exists t, media_type (PartHeader p) t /\ t <> "text/plain".

(** The title a message gets: the decoded trimmed Subject, or none. *)
Definition decoded_subject (msg : mail_Message) : result string :=
  let subject := TrimSpace (Header_Get (Header msg) "Subject") in
  if String.eqb subject "" then Ok "" else mime_DecodeHeader subject.

(** [msg] is a multipart message with the given parts and end of parts. *)
Definition multipart_of (msg : mail_Message) (parts : list Part) (final : error)
  : Prop :=
  exists ct params,
    mime_ParseMediaType (Header_Get (Header msg) "Content-Type") = Ok (ct, params)
    /\ HasPrefix ct "multipart/" = true
    /\ multipart_NewReader (Body msg) (param params "boundary")
       = {| mr_parts := parts; mr_end := final |}.

(** The recipients [tos], tried in turn, are all refused. *)
Fixpoint all_refused (tos : list string) (st : Store) : option Store :=
  match tos with
  | [] => Some st
  | to :: rest =>
      match Rcpt to st with
      | Returns (Some _) st' => all_refused rest st'
      | _ => None
      end
  end.

(** The calls the protocol engine makes on a session, and the store after
    a sequence of them. *)
Inductive call :=
| Call_Mail (from : string)
| Call_Rcpt (to : string)
| Call_Data (r : Reader)
| Call_Reset
| Call_Logout.

Definition step (c : call) (st : Store) : Store :=
  match c with
  | Call_Mail from => store_after (Mail from st)
  | Call_Rcpt to => store_after (Rcpt to st)
  | Call_Data r => store_after (Data r st)
  | Call_Reset => store_after (Reset st)
  | Call_Logout => store_after (Logout st)
  end.

Definition run (cs : list call) (st : Store) : Store :=
  fold_left (fun st c => step c st) cs st.

End Vocabulary.

(** The counting that ends a [Data] call which reached the publisher. *)
Definition counted (err : option error) (st : Store) : Store :=
  match err with
  | Some _ => incr_failure st
  | None => incr_success st
  end.

(** Counters that the next increment does not wrap. *)
Definition below_max (z : Z) : Prop := int64_min <= z < int64_max.

(** ** Vocabulary of the further properties *)

(** A message that does not have a title without a body. *)
Definition well_titled (m : message) : Prop :=
  Title m <> "" -> Message m <> "".

(** [err == nil] *)
Definition is_nil (err : option error) : bool :=
  match err with
  | None => true
  | Some _ => false
  end.

(** How many of the messages handed over so far the publisher accepted. *)
Definition accepted_count (st : Store) : Z :=
  Z.of_nat (length (List.filter (fun m => is_nil (sub (backend st) m))
                      (published st))).

Section SessionVocabulary.
Context `{Env}.

(** The stream [r] delivers the message [msg], whose plain-text body is
    [raw]. *)
Definition reads (r : Reader) (msg : mail_Message) (raw : string) : Prop :=
  exists b,
    io_ReadAll r = (b, None)
    /\ mail_ReadMessage b = Ok msg
    /\ readMailBody msg = (raw, None).

(** A stage of [Data] before the publisher fails with [e]: the read of the
    stream, the message parser, the body extraction, or, once the body is
    cut under a limit that is not negative, the subject decoder. *)
Inductive stage_error (r : Reader) (limit : Z) (e : error) : Prop :=
| read_fails b :
    io_ReadAll r = (b, Some e) -> stage_error r limit e
| message_fails b :
    io_ReadAll r = (b, None) -> mail_ReadMessage b = Err e ->
    stage_error r limit e
| body_fails b msg partial :
    io_ReadAll r = (b, None) -> mail_ReadMessage b = Ok msg ->
    readMailBody msg = (partial, Some e) ->
    stage_error r limit e
| subject_fails msg raw :
    reads r msg raw -> 0 <= limit -> decoded_subject msg = Err e ->
    stage_error r limit e.

(** A topic the session may hold: none, or one the pattern accepts. *)
Definition valid_topic (t : string) : Prop :=
  t = "" \/ topicRegex_MatchString t = true.

(** Calls that are neither [Rcpt] nor [Reset]. *)
Definition quiet (c : call) : bool :=
  match c with
  | Call_Mail _ | Call_Data _ | Call_Logout => true
  | Call_Rcpt _ | Call_Reset => false
  end.

End SessionVocabulary.

(** * Sample data *)

Module Sample.
Import Go.

Definition conf : Config :=
  {| SMTPServerDomain := "ntfy.sh"; SMTPServerAddrPrefix := "ntfy-";
     MessageLimit := 8 |}.

(** A publisher that accepts every message, and one that refuses. *)
Definition accept : subscriber := fun _ => None.
Definition refuse : subscriber := fun _ => Some (libError "publish failed").

(** A fresh session, and the session after it accepted a recipient: its
    topic is "mytopic". *)
Definition idle : Store := new_store conf accept.
Definition accepted : Store :=
  store_after (Rcpt (H:=env) "ntfy-mytopic@ntfy.sh" idle).

(** The text of a text/plain mail, and the stream that delivers it. *)
Definition plain_text (subject body : string) : string :=
  mail_text [("Subject", subject); ("Content-Type", "text/plain")] body.

Definition plain (subject body : string) : Reader :=
  bytes_Reader (plain_text subject body).

(** A stream that is no message: it has no header block. *)
Definition garbage : Reader := bytes_Reader "no header here".

Definition html_part : string :=
  mail_text [("Content-Type", "text/html")] "<p>A page</p>".
Definition part_A : string :=
  mail_text [("Content-Type", "text/plain")] "A".
Definition part_B : string :=
  mail_text [("Content-Type", "text/plain")] "B".
Definition image_part : string :=
  mail_text [("Content-Type", "image/png")] "PNG".

(** A part without a Content-Type header, and a text/html part whose
    Content-Type has a parameter without a value. *)
Definition bare_part : string := mail_text [] "No type".
Definition html_part_bad_param : string :=
  mail_text [("Content-Type", "text/html; charset")] "<p>A page</p>".

Definition multipart (parts : list string) : string :=
  mail_text
    [("Subject", "Hi");
     ("Content-Type", "multipart/alternative; boundary=frontier")]
    (multipart_text "frontier" parts).

(** The parsed form of a message text; an empty message when it does
    not parse. *)
Definition parsed (text : string) : mail_Message :=
  match ReadMessage text with
  | Ok msg => msg
  | Err _ => {| Header := ∅; Body := bytes_Reader "" |}
  end.

End Sample.

(** Further sample data. *)
Module Scenario.
Import Go.

(** A configuration whose limit is negative. *)
Definition conf_negative : Config :=
  {| SMTPServerDomain := "ntfy.sh"; SMTPServerAddrPrefix := "ntfy-";
     MessageLimit := -1 |}.

(** A text/html mail. *)
Definition html_mail : string :=
  mail_text [("Subject", "Hi"); ("Content-Type", "text/html")] "<p>A page</p>".

(** A parsed part with the given Content-Type and body. *)
Definition part (content_type body : string) : Part :=
  {| PartHeader := ({[ "Content-Type" := [content_type] ]} : MIMEHeader);
     PartBody := bytes_Reader body |}.

(** A fresh session on a backend with the negative limit. *)
Definition idle_negative : Store := new_store conf_negative Sample.accept.

(** The message "Hi" / "World" as the session [Sample.accepted] assembles
    it, and the long body of 22 bytes cut to the limit of 8. *)
Definition hi_world : message :=
  {| Topic := "mytopic"; Title := "Hi"; Message := "World" |}.

Definition hi_cut : message :=
  {| Topic := "mytopic"; Title := "Hi"; Message := "A body o" |}.

(** A multipart body that stops inside its text/plain part, before any
    closing boundary. *)
Definition cut_short : string :=
  mail_text
    [("Content-Type", "multipart/mixed; boundary=frontier")]
    ("--frontier" +:+ CRLF +:+ Sample.part_A).

End Scenario.

(** * Properties *)

(** ** Slices, prefixes and suffixes *)

Section StringFacts.
Implicit Types s t p : string.

Lemma append_nil_l s : "" +:+ s = s.
Proof. reflexivity. Qed.

Lemma append_cons c s t : String c s +:+ t = String c (s +:+ t).
Proof. reflexivity. Qed.

Lemma append_nil_r s : s +:+ "" = s.
Proof.
  induction s as [|c s IH]; [reflexivity|].
  rewrite append_cons, IH. reflexivity.
Qed.

Lemma append_assoc s t p : (s +:+ t) +:+ p = s +:+ (t +:+ p).
Proof.
  induction s as [|c s IH]; [reflexivity|].
  rewrite !append_cons, IH. reflexivity.
Qed.

Lemma length_append s t :
  String.length (s +:+ t) = (String.length s + String.length t)%nat.
Proof.
  induction s as [|c s IH]; [reflexivity|].
  rewrite append_cons. simpl. rewrite IH. reflexivity.
Qed.

Lemma slice_to_append s t : slice_to (String.length s) (s +:+ t) = s.
Proof.
  induction s as [|c s IH]; [reflexivity|].
  rewrite append_cons. simpl. rewrite IH. reflexivity.
Qed.

Lemma slice_from_append s t : slice_from (String.length s) (s +:+ t) = t.
Proof.
  induction s as [|c s IH]; [reflexivity|].
  rewrite append_cons. simpl. exact IH.
Qed.

Lemma slice_to_from n s : slice_to n s +:+ slice_from n s = s.
Proof.
  revert s. induction n as [|n IH]; intros [|c s]; try reflexivity.
  simpl. rewrite append_cons, IH. reflexivity.
Qed.

Lemma length_slice_to n s :
  (n <= String.length s)%nat -> String.length (slice_to n s) = n.
Proof.
  revert s. induction n as [|n IH]; intros [|c s] Hn; simpl in *;
    try reflexivity; try lia.
  rewrite IH; [reflexivity | lia].
Qed.

Lemma len_nonneg s : 0 <= len s.
Proof. unfold len. lia. Qed.

Lemma len_empty s : len s = 0 <-> s = "".
Proof.
  unfold len. destruct s; simpl; split; intros Hs;
    try reflexivity; try discriminate; lia.
Qed.

Lemma HasSuffix_append s t : HasSuffix (s +:+ t) t = true.
Proof.
  unfold HasSuffix, len. rewrite length_append.
  replace (String.length s + String.length t - String.length t)%nat
    with (String.length s) by lia.
  rewrite slice_from_append, String.eqb_refl.
  rewrite andb_true_r. apply Z.leb_le. lia.
Qed.

Lemma TrimSuffix_append s t : TrimSuffix (s +:+ t) t = s.
Proof.
  unfold TrimSuffix. rewrite HasSuffix_append, length_append.
  replace (String.length s + String.length t - String.length t)%nat
    with (String.length s) by lia.
  apply slice_to_append.
Qed.

Lemma HasPrefix_append p s : HasPrefix (p +:+ s) p = true.
Proof.
  unfold HasPrefix, len. rewrite length_append, slice_to_append.
  rewrite String.eqb_refl, andb_true_r. apply Z.leb_le. lia.
Qed.

Lemma TrimPrefix_append p s : TrimPrefix (p +:+ s) p = s.
Proof.
  unfold TrimPrefix. rewrite HasPrefix_append. apply slice_from_append.
Qed.

(** What a successful test says about the string. *)
Lemma HasSuffix_inv s t :
  HasSuffix s t = true -> s = TrimSuffix s t +:+ t.
Proof.
  intros Hs. unfold TrimSuffix. rewrite Hs.
  unfold HasSuffix in Hs. apply andb_true_iff in Hs as [_ Heq].
  apply String.eqb_eq in Heq.
  set (n := (String.length s - String.length t)%nat) in *. clearbody n.
  rewrite <- Heq. symmetry. apply slice_to_from.
Qed.

Lemma HasPrefix_inv s p :
  HasPrefix s p = true -> s = p +:+ TrimPrefix s p.
Proof.
  intros Hs. unfold TrimPrefix. rewrite Hs.
  unfold HasPrefix in Hs. apply andb_true_iff in Hs as [_ Heq].
  apply String.eqb_eq in Heq.
  set (n := String.length p) in *. clearbody n.
  rewrite <- Heq. symmetry. apply slice_to_from.
Qed.

(** Truncation. *)
Lemma slice_prefix_Some s n :
  0 <= n <= len s ->
  slice_prefix s n = Some (slice_to (Z.to_nat n) s)
  /\ len (slice_to (Z.to_nat n) s) = n.
Proof.
  intros [H0 Hn]. unfold slice_prefix.
  destruct (Z.ltb_spec n 0); [lia|].
  destruct (Z.ltb_spec (len s) n); [lia|]. simpl. split; [reflexivity|].
  unfold len in *. rewrite length_slice_to; lia.
Qed.

Lemma slice_prefix_negative s n : n < 0 -> slice_prefix s n = None.
Proof.
  intros Hn. unfold slice_prefix.
  destruct (Z.ltb_spec n 0); [reflexivity | lia].
Qed.

(** [TrimSpace] strips to the end: the fuel of [strip] covers every rune. *)
Lemma space_rune_bound bs : (space_rune bs <= length bs)%nat.
Proof.
  unfold space_rune. repeat case_match; simpl; lia.
Qed.

Lemma space_rune_last_bound bs : (space_rune_last bs <= length bs)%nat.
Proof.
  unfold space_rune_last. repeat case_match; simpl; lia.
Qed.

Lemma strip_complete test fuel bs :
  (forall l, (test l <= length l)%nat) ->
  (length bs <= fuel)%nat ->
  test (strip test fuel bs) = O.
Proof.
  intros Hbound. revert bs.
  induction fuel as [|fuel IH]; intros bs Hlen; simpl.
  - pose proof (Hbound bs). lia.
  - destruct (test bs) as [|k] eqn:Hk; [exact Hk|].
    apply IH. rewrite length_drop. lia.
Qed.

Lemma TrimSpace_stripped s :
  exists front back,
    space_rune front = O
    /\ space_rune_last back = O
    /\ front = strip space_rune (length (bytes_of s)) (bytes_of s)
    /\ back = strip space_rune_last (length (rev front)) (rev front)
    /\ TrimSpace s = of_bytes (rev back).
Proof.
  eexists _, _. split; [|split; [|split; [reflexivity|split; reflexivity]]].
  - apply strip_complete; [apply space_rune_bound | lia].
  - apply strip_complete; [apply space_rune_last_bound | lia].
Qed.

Example TrimSpace_ascii :
  TrimSpace (" " +:+ Go.CRLF +:+ "Hello  world " +:+ Go.CRLF) = "Hello  world".
Proof. reflexivity. Qed.

(** U+00A0 before and U+2009 after "Hi". *)
Example TrimSpace_unicode :
  TrimSpace (of_bytes [194; 160; 72; 105; 226; 128; 137]%N) = "Hi".
Proof. reflexivity. Qed.

Example TrimSpace_blank : TrimSpace "   " = "".
Proof. reflexivity. Qed.

End StringFacts.

(** ** The resolver *)

Section Resolver.
Context `{Env}.

Lemma Rcpt_accepts st to topic :
  resolves (config (backend st)) to topic ->
  Rcpt to st = Returns None (set_topic topic st).
Proof.
  intros (a & Hparse & Haddr & Hmatch).
  unfold Rcpt, withFailCount, try. rewrite Hparse, Haddr.
  set (conf := config (backend st)).
  rewrite <- (append_assoc (SMTPServerAddrPrefix conf)).
  rewrite HasSuffix_append, TrimSuffix_append. simpl.
  destruct (String.eqb_spec (SMTPServerAddrPrefix conf) "") as [Hp|Hp]; simpl.
  - rewrite Hp, append_nil_l, Hmatch. reflexivity.
  - rewrite HasPrefix_append, TrimPrefix_append, Hmatch. reflexivity.
Qed.

Lemma Rcpt_rejects st to :
  ~ (exists topic, resolves (config (backend st)) to topic) ->
  exists e, Rcpt to st = Returns (Some e) (incr_failure st)
            /\ resolver_error to e.
Proof.
  intros Hno. unfold Rcpt, withFailCount, try, resolver_error.
  set (conf := config (backend st)) in *.
  destruct (mail_ParseAddressList to) as [l|e] eqn:Hparse;
    [|exists e; auto 10].
  destruct l as [|a [|a' l]];
    [exists errTooManyRecipients; auto 10 | | exists errTooManyRecipients; auto 10].
  destruct (HasSuffix (Addr a) ("@" +:+ SMTPServerDomain conf)) eqn:Hsuf; simpl;
    [|exists errInvalidDomain; auto 10].
  apply HasSuffix_inv in Hsuf.
  set (local := TrimSuffix (Addr a) ("@" +:+ SMTPServerDomain conf)) in *.
  destruct (String.eqb_spec (SMTPServerAddrPrefix conf) "") as [Hp|Hp]; simpl.
  - destruct (topicRegex_MatchString local) eqn:Hmatch; simpl;
      [|exists errInvalidTopic; auto 10].
    exfalso. apply Hno. exists local, a.
    rewrite Hp, append_nil_l. auto.
  - destruct (HasPrefix local (SMTPServerAddrPrefix conf)) eqn:Hpre; simpl;
      [|exists errInvalidAddress; auto 10].
    apply HasPrefix_inv in Hpre.
    set (t := TrimPrefix local (SMTPServerAddrPrefix conf)) in *.
    destruct (topicRegex_MatchString t) eqn:Hmatch; simpl;
      [|exists errInvalidTopic; auto 10].
    exfalso. apply Hno. exists t, a.
    rewrite <- append_assoc, <- Hpre. auto.
Qed.

(** C1, as the code has it.  A recipient that parses to exactly one
    address of the form [<prefix><topic>@<domain>], with [<topic>]
    matching the topic pattern, is accepted: [Rcpt] returns nil, the
    session's topic is exactly [<topic>] and nothing else changes.  Every
    other recipient is refused with one of the five resolver errors (the
    parser's own error, too many recipients, invalid domain, invalid
    address, invalid topic), and the session's topic is left as it was. *)
Theorem Rcpt_resolves_parsed_address st to :
  (forall t,
      resolves (config (backend st)) to t ->
      exists st',
        Rcpt to st = Returns None st'
        /\ topic (session st') = t
        /\ backend st' = backend st /\ published st' = published st)
  /\ (~ (exists t, resolves (config (backend st)) to t) ->
      exists e st',
        Rcpt to st = Returns (Some e) st'
        /\ resolver_error to e
        /\ topic (session st') = topic (session st)).
Proof.
  split.
  - intros t Hres. exists (set_topic t st).
    rewrite (Rcpt_accepts _ _ _ Hres). auto.
  - intros Hno. destruct (Rcpt_rejects st to Hno) as (e & Hr & He).
    exists e, (incr_failure st). auto.
Qed.

End Resolver.

(** The theorem at work: "ntfy-mytopic@ntfy.sh" is accepted with topic
    "mytopic"; "mytopic@example.com" is refused. *)
Lemma Rcpt_resolves_parsed_address_witness :
  (exists st',
      Rcpt (H:=Go.env) "ntfy-mytopic@ntfy.sh" Sample.idle = Returns None st'
      /\ topic (session st') = "mytopic"
      /\ backend st' = backend Sample.idle
      /\ published st' = published Sample.idle)
  /\ (exists e st',
        Rcpt (H:=Go.env) "mytopic@example.com" Sample.idle = Returns (Some e) st'
        /\ resolver_error (H:=Go.env) "mytopic@example.com" e
        /\ topic (session st') = topic (session Sample.idle)).
Proof.
  split.
  - apply (proj1 (Rcpt_resolves_parsed_address (H:=Go.env) Sample.idle
                    "ntfy-mytopic@ntfy.sh")).
    exists {| Name := ""; Addr := "ntfy-mytopic@ntfy.sh" |}.
    repeat split; reflexivity.
  - apply (proj2 (Rcpt_resolves_parsed_address (H:=Go.env) Sample.idle
                    "mytopic@example.com")).
    intros (t & a & Hparse & Haddr & _).
    vm_compute in Hparse. injection Hparse as <-.
    pose proof (HasSuffix_append ("ntfy-" +:+ t) "@ntfy.sh") as Hsuf.
    rewrite append_assoc in Hsuf.
    simpl in Haddr. change ("@" +:+ "ntfy.sh") with "@ntfy.sh" in Haddr.
    rewrite <- Haddr in Hsuf. vm_compute in Hsuf. discriminate Hsuf.
Defined.

(** C1 as written fails: the recipient "Bob <ntfy-mytopic@ntfy.sh>" is not
    of the form [<prefix><topic>@<domain>], and [Rcpt] accepts it and
    stores "mytopic". *)
Lemma Rcpt_accepts_display_name :
  ~ (exists t, written_as (H:=Go.env) Sample.conf "Bob <ntfy-mytopic@ntfy.sh>" t)
  /\ Rcpt (H:=Go.env) "Bob <ntfy-mytopic@ntfy.sh>" Sample.idle
     = Returns None (set_topic "mytopic" Sample.idle)
  /\ (forall e st',
        Rcpt (H:=Go.env) "Bob <ntfy-mytopic@ntfy.sh>" Sample.idle
        <> Returns (Some e) st').
Proof.
  split; [|split; [reflexivity | intros e st' Hr; vm_compute in Hr; discriminate Hr]].
  intros (t & Hto & _).
  pose proof (HasSuffix_append ("ntfy-" +:+ t) "@ntfy.sh") as Hsuf.
  rewrite append_assoc in Hsuf.
  simpl in Hto. change ("@" +:+ "ntfy.sh") with "@ntfy.sh" in Hto.
  rewrite <- Hto in Hsuf. vm_compute in Hsuf. discriminate Hsuf.
Qed.

(** ** The body extractor *)

Section Extractor.
Context `{Env}.

Lemma scanParts_other p rest final :
  other_part p -> scanParts (p :: rest) final = scanParts rest final.
Proof.
  intros (t & (params & Ht) & Hne). simpl. rewrite Ht.
  destruct (String.eqb_spec t "text/plain"); [contradiction | reflexivity].
Qed.

Lemma scanParts_skip pre rest final :
  Forall other_part pre ->
  scanParts (pre ++ rest) final = scanParts rest final.
Proof.
  induction 1 as [|p pre Hp _ IH]; [reflexivity|].
  rewrite <- app_comm_cons, scanParts_other by assumption. exact IH.
Qed.

Lemma scanParts_plain A post final :
  media_type (PartHeader A) "text/plain" ->
  rd_err (PartBody A) = None ->
  scanParts (A :: post) final = (rd_bytes (PartBody A), None).
Proof.
  intros (params & Ht) Hr. simpl. rewrite Ht. simpl.
  unfold io_ReadAll. rewrite Hr. reflexivity.
Qed.

Lemma scanParts_unparseable p post final e :
  mime_ParseMediaType (Header_Get (PartHeader p) "Content-Type") = Err e ->
  scanParts (p :: post) final = ("", Some e).
Proof. intros He. simpl. rewrite He. reflexivity. Qed.

Lemma scanParts_none parts final :
  Forall (fun p => ~ media_type (PartHeader p) "text/plain") parts ->
  exists e, scanParts parts final = ("", Some e).
Proof.
  induction 1 as [|p parts Hp _ IH]; simpl; [eauto|].
  destruct (mime_ParseMediaType _) as [[t params]|e] eqn:Ht; [|eauto].
  destruct (String.eqb_spec t "text/plain") as [->|Hne]; simpl; [|exact IH].
  exfalso. apply Hp. exists params. exact Ht.
Qed.

Lemma scanParts_exhausted parts final :
  Forall other_part parts -> scanParts parts final = ("", Some final).
Proof.
  intros Hall. rewrite <- (app_nil_r parts).
  rewrite scanParts_skip by assumption. reflexivity.
Qed.

Lemma multipart_not_plain ct :
  HasPrefix ct "multipart/" = true -> String.eqb ct "text/plain" = false.
Proof.
  intros Hpre. destruct (String.eqb_spec ct "text/plain") as [->|];
    [discriminate Hpre | reflexivity].
Qed.

Lemma readMailBody_multipart msg parts final :
  multipart_of msg parts final ->
  readMailBody msg = scanParts parts final.
Proof.
  intros (ct & params & Hct & Hpre & Hmr). unfold readMailBody.
  rewrite Hct, (multipart_not_plain _ Hpre), Hpre, Hmr. reflexivity.
Qed.

(** C3, as the code has it.  From a multipart message whose parts are, in
    order, a text/html part, a text/plain part A and a text/plain part B,
    the extraction returns exactly the content of A.  In general, when the
    parts before a text/plain part A all have a Content-Type that parses to
    another media type, the extraction returns the content of A, whatever
    parts follow.  A part before A whose Content-Type does not parse is not
    skipped: the extraction ends there with the parse error. *)
Theorem readMailBody_first_plain msg final :
  (forall P A B,
      multipart_of msg [P; A; B] final ->
      media_type (PartHeader P) "text/html" ->
      media_type (PartHeader A) "text/plain" ->
      media_type (PartHeader B) "text/plain" ->
      rd_err (PartBody A) = None ->
      readMailBody msg = (rd_bytes (PartBody A), None))
  /\ (forall pre A post,
        multipart_of msg (pre ++ A :: post) final ->
        Forall other_part pre ->
        media_type (PartHeader A) "text/plain" ->
        rd_err (PartBody A) = None ->
        readMailBody msg = (rd_bytes (PartBody A), None))
  /\ (forall pre p post e,
        multipart_of msg (pre ++ p :: post) final ->
        Forall other_part pre ->
        mime_ParseMediaType (Header_Get (PartHeader p) "Content-Type") = Err e ->
        readMailBody msg = ("", Some e)).
Proof.
  split; [|split].
  - intros P A B Hm HP HA _ Hr.
    rewrite (readMailBody_multipart _ _ _ Hm).
    rewrite scanParts_other; [apply scanParts_plain; assumption|].
    exists "text/html". split; [exact HP | discriminate].
  - intros pre A post Hm Hpre HA Hr.
    rewrite (readMailBody_multipart _ _ _ Hm).
    rewrite scanParts_skip by assumption.
    apply scanParts_plain; assumption.
  - intros pre p post e Hm Hpre He.
    rewrite (readMailBody_multipart _ _ _ Hm).
    rewrite scanParts_skip by assumption.
    apply scanParts_unparseable, He.
Qed.

(** C7.  From a multipart message without a text/plain part the
    extraction fails, with an empty body.  When every part has a media
    type, so that the iteration reaches the end of the parts, the error
    returned is the very error that ended the iteration. *)
Theorem readMailBody_no_plain_part msg parts final :
  multipart_of msg parts final ->
  Forall (fun p => ~ media_type (PartHeader p) "text/plain") parts ->
  (exists e, readMailBody msg = ("", Some e))
  /\ (Forall (fun p => exists t, media_type (PartHeader p) t) parts ->
      readMailBody msg = ("", Some final)).
Proof.
  intros Hm Hnone. rewrite (readMailBody_multipart _ _ _ Hm). split.
  - apply scanParts_none. exact Hnone.
  - intros Hall. apply scanParts_exhausted.
    rewrite Forall_forall in *. intros p Hp.
    destruct (Hall p Hp) as (t & Ht). exists t. split; [exact Ht|].
    intros ->. exact (Hnone p Hp Ht).
Qed.

End Extractor.

(** The theorem at work: with the parts text/html, text/plain "A",
    text/plain "B" the body is "A"; with image/png, text/html, text/plain
    "B", text/plain "A" it is "B"; with a part without Content-Type before
    "A" the extraction fails. *)
Lemma readMailBody_first_plain_witness :
  readMailBody (H:=Go.env)
    (Sample.parsed (Sample.multipart [Sample.html_part; Sample.part_A; Sample.part_B]))
  = ("A", None)
  /\ readMailBody (H:=Go.env)
       (Sample.parsed
          (Sample.multipart [Sample.image_part; Sample.html_part; Sample.part_B;
                             Sample.part_A]))
     = ("B", None)
  /\ readMailBody (H:=Go.env)
       (Sample.parsed (Sample.multipart [Sample.html_part; Sample.bare_part;
                                         Sample.part_A]))
     = ("", Some (libError "mime: no media type")).
Proof.
  split; [|split].
  - eapply (proj1 (readMailBody_first_plain (H:=Go.env) _ io_EOF)
              {| PartHeader := {[ "Content-Type" := ["text/html"] ]};
                 PartBody := Go.bytes_Reader "<p>A page</p>" |}
              {| PartHeader := {[ "Content-Type" := ["text/plain"] ]};
                 PartBody := Go.bytes_Reader "A" |}
              {| PartHeader := {[ "Content-Type" := ["text/plain"] ]};
                 PartBody := Go.bytes_Reader "B" |}).
    + exists "multipart/alternative", {[ "boundary" := "frontier" ]}.
      repeat split; vm_compute; reflexivity.
    + exists ∅. vm_compute. reflexivity.
    + exists ∅. vm_compute. reflexivity.
    + exists ∅. vm_compute. reflexivity.
    + reflexivity.
  - eapply (proj1 (proj2 (readMailBody_first_plain (H:=Go.env) _ io_EOF))
              [ {| PartHeader := {[ "Content-Type" := ["image/png"] ]};
                   PartBody := Go.bytes_Reader "PNG" |};
                {| PartHeader := {[ "Content-Type" := ["text/html"] ]};
                   PartBody := Go.bytes_Reader "<p>A page</p>" |} ]
              {| PartHeader := {[ "Content-Type" := ["text/plain"] ]};
                 PartBody := Go.bytes_Reader "B" |}
              [ {| PartHeader := {[ "Content-Type" := ["text/plain"] ]};
                   PartBody := Go.bytes_Reader "A" |} ]).
    + exists "multipart/alternative", {[ "boundary" := "frontier" ]}.
      repeat split; vm_compute; reflexivity.
    + repeat constructor.
      * exists "image/png". split; [exists ∅; vm_compute; reflexivity | discriminate].
      * exists "text/html". split; [exists ∅; vm_compute; reflexivity | discriminate].
    + exists ∅. vm_compute. reflexivity.
    + reflexivity.
  - eapply (proj2 (proj2 (readMailBody_first_plain (H:=Go.env) _ io_EOF))
              [ {| PartHeader := {[ "Content-Type" := ["text/html"] ]};
                   PartBody := Go.bytes_Reader "<p>A page</p>" |} ]
              {| PartHeader := ∅; PartBody := Go.bytes_Reader "No type" |}
              [ {| PartHeader := {[ "Content-Type" := ["text/plain"] ]};
                   PartBody := Go.bytes_Reader "A" |} ]).
    + exists "multipart/alternative", {[ "boundary" := "frontier" ]}.
      repeat split; vm_compute; reflexivity.
    + repeat constructor.
      exists "text/html". split; [exists ∅; vm_compute; reflexivity | discriminate].
    + vm_compute. reflexivity.
Defined.

(** C3 as written fails.  In a message whose parts are a part without a
    Content-Type header and then the text/plain part "A", the first part
    whose media type is text/plain is "A", and the extraction fails at the
    part before it.  In a message whose parts are a text/html part with a
    parameter that does not parse, then text/plain "A", then text/plain
    "B", the extraction fails at the text/html part. *)
Lemma readMailBody_stops_at_unparsed_part :
  let msg := Sample.parsed (Sample.multipart [Sample.bare_part; Sample.part_A]) in
  let P := {| PartHeader := ∅; PartBody := Go.bytes_Reader "No type" |} in
  let A := {| PartHeader := {[ "Content-Type" := ["text/plain"] ]};
              PartBody := Go.bytes_Reader "A" |} in
  (multipart_of (H:=Go.env) msg [P; A] io_EOF
   /\ ~ media_type (H:=Go.env) (PartHeader P) "text/plain"
   /\ media_type (H:=Go.env) (PartHeader A) "text/plain"
   /\ readMailBody (H:=Go.env) msg <> (rd_bytes (PartBody A), None)
   /\ readMailBody (H:=Go.env) msg = ("", Some (libError "mime: no media type")))
  /\ readMailBody (H:=Go.env)
       (Sample.parsed
          (Sample.multipart [Sample.html_part_bad_param; Sample.part_A; Sample.part_B]))
     = ("", Some Go.ErrInvalidMediaParameter).
Proof.
  cbv zeta. split; [split; [|split; [|split; [|split]]]|].
  - exists "multipart/alternative", {[ "boundary" := "frontier" ]}.
    repeat split; vm_compute; reflexivity.
  - intros (params & Ht). vm_compute in Ht. discriminate Ht.
  - exists ∅. vm_compute. reflexivity.
  - vm_compute. discriminate.
  - vm_compute. reflexivity.
  - vm_compute. reflexivity.
Qed.

(** The theorem at work on a message with the parts text/html and
    image/png: the extraction fails with the end of the parts. *)
Lemma readMailBody_no_plain_part_witness :
  (exists e, readMailBody (H:=Go.env)
               (Sample.parsed (Sample.multipart [Sample.html_part; Sample.image_part]))
             = ("", Some e))
  /\ readMailBody (H:=Go.env)
       (Sample.parsed (Sample.multipart [Sample.html_part; Sample.image_part]))
     = ("", Some io_EOF).
Proof.
  assert (Hm : multipart_of (H:=Go.env)
                 (Sample.parsed (Sample.multipart [Sample.html_part; Sample.image_part]))
                 [ {| PartHeader := {[ "Content-Type" := ["text/html"] ]};
                      PartBody := Go.bytes_Reader "<p>A page</p>" |};
                   {| PartHeader := {[ "Content-Type" := ["image/png"] ]};
                      PartBody := Go.bytes_Reader "PNG" |} ]
                 io_EOF).
  { exists "multipart/alternative", {[ "boundary" := "frontier" ]}.
    repeat split; vm_compute; reflexivity. }
  destruct (readMailBody_no_plain_part (H:=Go.env) _ _ _ Hm) as [Hfail Hend].
  - repeat constructor; intros (params & Ht); vm_compute in Ht; discriminate Ht.
  - split; [exact Hfail|]. apply Hend.
    repeat constructor;
      [exists "text/html" | exists "image/png"]; exists ∅; vm_compute; reflexivity.
Defined.

(** ** The session *)

Lemma incr64_below_max z : below_max z -> incr64 z = z + 1.
Proof.
  unfold below_max, incr64, wrap64, int64_min, int64_max. intros Hz.
  rewrite Z.mod_small; lia.
Qed.

(** Destruct what the goal matches on, innermost scrutinee first. *)
Ltac case_scrutinee :=
  match goal with
  | |- context [match ?x with _ => _ end] =>
      lazymatch x with
      | context [match _ with _ => _ end] => fail
      | _ => let E := fresh "E" in destruct x eqn:E
      end
  end.

Section Session.
Context `{Env}.

(** Every way a [Rcpt] call can end. *)
Lemma Rcpt_outcome to st :
  (exists e, Rcpt to st = Returns (Some e) (incr_failure st))
  \/ (exists t, Rcpt to st = Returns None (set_topic t st)).
Proof.
  unfold Rcpt, withFailCount, try, return_err, ret.
  repeat case_scrutinee; simpl; eauto.
Qed.

(** Every way a [Data] call can end: a panic before anything changed, an
    error before the publisher was reached, or the publisher's answer to
    a message that carries the session's topic. *)
Lemma Data_outcome r st :
  (Data r st = Panics st /\ MessageLimit (config (backend st)) < 0)
  \/ (exists e, Data r st = Returns (Some e) (incr_failure st))
  \/ (exists m,
        Topic m = topic (session st)
        /\ Data r st = Returns (sub (backend st) m)
                         (counted (sub (backend st) m) (log_publish m st))).
Proof.
  unfold Data, withFailCount, try_pair, try, bind, call_sub, panic,
    return_err, ret.
  destruct (io_ReadAll r) as [b [e|]]; simpl; [eauto|].
  destruct (mail_ReadMessage b) as [msg|e]; simpl; [|eauto].
  destruct (readMailBody msg) as [raw [e|]]; simpl; [eauto|].
  destruct (truncate _ _) as [body|] eqn:Htr; simpl.
  - right.
    set (m0 := newDefaultMessage (topic (session st)) body).
    destruct (negb _); simpl.
    + destruct (mime_DecodeHeader _) as [subject|e]; simpl; [|eauto].
      right. exists (flip (with_Title m0 subject)). split.
      * unfold flip. destruct (_ && _); reflexivity.
      * destruct (sub _ _); reflexivity.
    + right. exists (flip m0). split.
      * unfold flip. destruct (_ && _); reflexivity.
      * destruct (sub _ _); reflexivity.
  - left. split; [reflexivity|].
    unfold truncate, slice_prefix in Htr.
    destruct (Z.gtb_spec (len (TrimSpace raw)) (MessageLimit (config (backend st))));
      [|discriminate].
    destruct (Z.ltb_spec (MessageLimit (config (backend st))) 0); [assumption|].
    destruct (Z.ltb_spec (len (TrimSpace raw)) (MessageLimit (config (backend st))));
      [lia | discriminate].
Qed.

(** A [Data] call whose message parses, has a body and a decodable
    subject reaches the publisher with the assembled message. *)
Lemma Data_publishes r st b msg raw body title :
  io_ReadAll r = (b, None) ->
  mail_ReadMessage b = Ok msg ->
  readMailBody msg = (raw, None) ->
  truncate (TrimSpace raw) (MessageLimit (config (backend st))) = Some body ->
  decoded_subject msg = Ok title ->
  let m := flip {| Topic := topic (session st); Title := title; Message := body |} in
  Data r st = Returns (sub (backend st) m)
                (counted (sub (backend st) m) (log_publish m st)).
Proof.
  intros Hr Hmsg Hbody Htr Hsub m. subst m.
  unfold Data, withFailCount, try_pair, try, bind, call_sub, return_err, ret.
  rewrite Hr, Hmsg, Hbody, Htr. unfold decoded_subject in Hsub.
  destruct (String.eqb _ "") eqn:Hempty; simpl.
  - injection Hsub as <-. unfold newDefaultMessage.
    destruct (sub _ _); reflexivity.
  - rewrite Hsub. unfold with_Title, newDefaultMessage. simpl.
    destruct (sub _ _); reflexivity.
Qed.

Lemma truncate_short s limit :
  len s <= limit -> truncate s limit = Some s.
Proof.
  intros Hs. unfold truncate.
  destruct (Z.gtb_spec (len s) limit); [lia | reflexivity].
Qed.

Lemma truncate_long s limit :
  0 <= limit < len s ->
  truncate s limit = Some (slice_to (Z.to_nat limit) s)
  /\ len (slice_to (Z.to_nat limit) s) = limit.
Proof.
  intros Hs. unfold truncate.
  destruct (Z.gtb_spec (len s) limit); [|lia].
  apply slice_prefix_Some. lia.
Qed.

Lemma truncate_negative s limit : limit < 0 -> truncate s limit = None.
Proof.
  intros Hl. unfold truncate. pose proof (len_nonneg s).
  destruct (Z.gtb_spec (len s) limit); [|lia].
  apply slice_prefix_negative, Hl.
Qed.

(** With a negative limit the cut [body[:limit]] is out of range: the call
    panics, and nothing is counted. *)
Lemma Data_panics r st b msg raw :
  io_ReadAll r = (b, None) ->
  mail_ReadMessage b = Ok msg ->
  readMailBody msg = (raw, None) ->
  MessageLimit (config (backend st)) < 0 ->
  Data r st = Panics st.
Proof.
  intros Hr Hmsg Hbody Hl.
  unfold Data, withFailCount, try_pair, try, panic.
  rewrite Hr, Hmsg, Hbody, (truncate_negative _ _ Hl). reflexivity.
Qed.

(** C2, as the code has it.  A [Data] call that returns nil leaves the
    session's topic as it was before the call: [Data] does not write the
    field, and the session is back to an empty topic only after
    [Reset]. *)
Theorem Data_keeps_topic r st st' :
  Data r st = Returns None st' ->
  topic (session st') = topic (session st).
Proof.
  intros HD.
  destruct (Data_outcome r st) as [[Hp _]|[(e & He)|(m & _ & Hm)]];
    rewrite HD in *; try discriminate.
  injection Hm as Hsub ->. rewrite <- Hsub. reflexivity.
Qed.

(** C6.  While the counters are below the largest [int64]: a [Rcpt] or
    [Data] call that returns an error adds exactly one to [failure] and
    leaves [success]; a [Data] call that returns nil adds exactly one to
    [success] and leaves [failure]; a [Rcpt] call that returns nil
    changes neither. *)
Theorem counters_follow_errors st :
  below_max (success (backend st)) ->
  below_max (failure (backend st)) ->
  (forall to e st',
      Rcpt to st = Returns (Some e) st' ->
      failure (backend st') = failure (backend st) + 1
      /\ success (backend st') = success (backend st))
  /\ (forall r e st',
        Data r st = Returns (Some e) st' ->
        failure (backend st') = failure (backend st) + 1
        /\ success (backend st') = success (backend st))
  /\ (forall r st',
        Data r st = Returns None st' ->
        success (backend st') = success (backend st) + 1
        /\ failure (backend st') = failure (backend st))
  /\ (forall to st',
        Rcpt to st = Returns None st' ->
        success (backend st') = success (backend st)
        /\ failure (backend st') = failure (backend st)).
Proof.
  intros Hs Hf.
  pose proof (incr64_below_max _ Hs) as Hs1.
  pose proof (incr64_below_max _ Hf) as Hf1.
  split; [|split; [|split]].
  - intros to e st' HR.
    destruct (Rcpt_outcome to st) as [(e' & He)|(t & Ht)];
      rewrite HR in *; [|discriminate].
    injection He as _ ->. split; [exact Hf1 | reflexivity].
  - intros r e st' HD.
    destruct (Data_outcome r st) as [[Hp _]|[(e' & He)|(m & _ & Hm)]];
      rewrite HD in *; try discriminate.
    + injection He as _ ->. split; [exact Hf1 | reflexivity].
    + injection Hm as Hsub ->. rewrite <- Hsub.
      split; [exact Hf1 | reflexivity].
  - intros r st' HD.
    destruct (Data_outcome r st) as [[Hp _]|[(e' & He)|(m & _ & Hm)]];
      rewrite HD in *; try discriminate.
    injection Hm as Hsub ->. rewrite <- Hsub.
    split; [exact Hs1 | reflexivity].
  - intros to st' HR.
    destruct (Rcpt_outcome to st) as [(e' & He)|(t & Ht)];
      rewrite HR in *; [discriminate|].
    injection Ht as ->. split; reflexivity.
Qed.

Lemma flip_Topic m : Topic (flip m) = Topic m.
Proof. unfold flip. destruct (_ && _); reflexivity. Qed.

Lemma flip_swaps t title :
  title <> "" ->
  flip {| Topic := t; Title := title; Message := "" |}
  = {| Topic := t; Title := ""; Message := title |}.
Proof.
  intros Ht. unfold flip. simpl.
  destruct (String.eqb_spec title ""); [contradiction | reflexivity].
Qed.

Lemma flip_keeps t title body :
  title = "" \/ body <> "" ->
  flip {| Topic := t; Title := title; Message := body |}
  = {| Topic := t; Title := title; Message := body |}.
Proof.
  intros Hc. unfold flip. simpl.
  destruct (String.eqb_spec title "") as [Ht|Ht]; simpl; [reflexivity|].
  destruct (String.eqb_spec body "") as [Hb|Hb]; simpl; [|reflexivity].
  destruct Hc; contradiction.
Qed.

(** C4.  [title] is the decoded trimmed subject and [body] the trimmed,
    truncated body.  The message handed to the publisher has the title
    moved into the message when the title is not empty and the body is;
    otherwise title and body stay where they are.  So ("Hello", "") gives
    title "" and message "Hello"; ("", "World") gives title "" and message
    "World"; ("Hi", "World") gives title "Hi" and message "World". *)
Theorem swap_rule r st b msg raw body title :
  io_ReadAll r = (b, None) ->
  mail_ReadMessage b = Ok msg ->
  readMailBody msg = (raw, None) ->
  truncate (TrimSpace raw) (MessageLimit (config (backend st))) = Some body ->
  decoded_subject msg = Ok title ->
  exists m,
    Data r st = Returns (sub (backend st) m)
                  (counted (sub (backend st) m) (log_publish m st))
    /\ Topic m = topic (session st)
    /\ (title <> "" -> body = "" -> Title m = "" /\ Message m = title)
    /\ (title = "" \/ body <> "" -> Title m = title /\ Message m = body)
    /\ (title = "Hello" -> body = "" -> Title m = "" /\ Message m = "Hello")
    /\ (title = "" -> body = "World" -> Title m = "" /\ Message m = "World")
    /\ (title = "Hi" -> body = "World" -> Title m = "Hi" /\ Message m = "World").
Proof.
  intros Hr Hmsg Hbody Htr Hsub.
  pose proof (flip_swaps (topic (session st)) title) as Hswap.
  pose proof (flip_keeps (topic (session st)) title body) as Hkeep.
  exists (flip {| Topic := topic (session st); Title := title; Message := body |}).
  split; [exact (Data_publishes _ _ _ _ _ _ _ Hr Hmsg Hbody Htr Hsub)|].
  split; [apply flip_Topic|].
  split; [intros Ht ->; rewrite (Hswap Ht); split; reflexivity|].
  split; [intros Hc; rewrite (Hkeep Hc); split; reflexivity|].
  split; [intros -> ->; rewrite Hswap by discriminate; split; reflexivity|].
  split; intros -> ->; rewrite Hkeep; try (split; reflexivity).
  - left. reflexivity.
  - right. discriminate.
Qed.

Lemma truncate_total s limit :
  0 <= limit -> exists body, truncate s limit = Some body.
Proof.
  intros Hl. destruct (Z.le_gt_cases (len s) limit) as [Hs|Hs].
  - exists s. apply truncate_short, Hs.
  - eexists. apply truncate_long. lia.
Qed.

Lemma readMailBody_plain msg :
  media_type (Header msg) "text/plain" ->
  rd_err (Body msg) = None ->
  readMailBody msg = (rd_bytes (Body msg), None).
Proof.
  intros (params & Hct) Hr. unfold readMailBody, io_ReadAll.
  rewrite Hct, Hr. reflexivity.
Qed.

Lemma all_refused_topic tos st st1 :
  all_refused tos st = Some st1 ->
  topic (session st1) = topic (session st).
Proof.
  revert st. induction tos as [|to tos IH]; intros st Hall; simpl in Hall.
  - injection Hall as <-. reflexivity.
  - destruct (Rcpt_outcome to st) as [(e & He)|(t & Ht)];
      rewrite ?He, ?Ht in Hall; [|discriminate].
    rewrite (IH _ Hall). reflexivity.
Qed.

(** C5, as the code has it.  [body] is the trimmed body after the cut: when
    the trimmed body is longer than the limit, [body] is its first
    [MessageLimit] bytes, so its length is exactly the limit; when the
    trimmed body is within the limit, [body] is the trimmed body.  The
    message handed to the publisher has [body] as its message, except that
    an empty [body] under a title that is not empty gives way to the
    title. *)
Theorem truncation_rule r st b msg raw title :
  io_ReadAll r = (b, None) ->
  mail_ReadMessage b = Ok msg ->
  readMailBody msg = (raw, None) ->
  decoded_subject msg = Ok title ->
  0 <= MessageLimit (config (backend st)) ->
  exists m body,
    Data r st = Returns (sub (backend st) m)
                  (counted (sub (backend st) m) (log_publish m st))
    /\ (MessageLimit (config (backend st)) < len (TrimSpace raw) ->
        len body = MessageLimit (config (backend st))
        /\ body
           = slice_to (Z.to_nat (MessageLimit (config (backend st)))) (TrimSpace raw))
    /\ (len (TrimSpace raw) <= MessageLimit (config (backend st)) ->
        body = TrimSpace raw)
    /\ (body <> "" \/ title = "" -> Message m = body)
    /\ (body = "" -> title <> "" -> Message m = title).
Proof.
  intros Hr Hmsg Hbody Hsub Hpos.
  set (limit := MessageLimit (config (backend st))) in *.
  assert (Hcut : exists body,
             truncate (TrimSpace raw) limit = Some body
             /\ (limit < len (TrimSpace raw) ->
                 len body = limit
                 /\ body = slice_to (Z.to_nat limit) (TrimSpace raw))
             /\ (len (TrimSpace raw) <= limit -> body = TrimSpace raw)).
  { destruct (Z.le_gt_cases (len (TrimSpace raw)) limit) as [Hle|Hgt].
    - exists (TrimSpace raw). split; [apply truncate_short, Hle|].
      split; [intros Hlong; lia | reflexivity].
    - destruct (truncate_long (TrimSpace raw) limit) as [Htr Hlen]; [lia|].
      eexists. split; [exact Htr|].
      split; [intros _; split; [exact Hlen | reflexivity] | intros Hle; lia]. }
  destruct Hcut as (body & Htr & Hlong & Hshort).
  exists (flip {| Topic := topic (session st); Title := title; Message := body |}),
    body.
  split; [exact (Data_publishes _ _ _ _ _ _ _ Hr Hmsg Hbody Htr Hsub)|].
  split; [exact Hlong|]. split; [exact Hshort|]. split.
  - intros Hc. rewrite flip_keeps; [reflexivity|].
    destruct Hc; [right | left]; assumption.
  - intros -> Ht. rewrite flip_swaps by assumption. reflexivity.
Qed.

(** C8.  [Reset] empties the session's topic, whatever it was.  After
    [Reset] and any number of refused recipients the topic is still
    empty, and a [Data] call then hands the publisher either nothing or a
    message whose topic is empty. *)
Theorem Reset_clears_topic st tos st1 r :
  all_refused tos (store_after (Reset st)) = Some st1 ->
  topic (session (store_after (Reset st))) = ""
  /\ topic (session st1) = ""
  /\ (published (store_after (Data r st1)) = published st1
      \/ exists m,
          published (store_after (Data r st1)) = m :: published st1
          /\ Topic m = "").
Proof.
  intros Hall. split; [reflexivity|].
  assert (Ht : topic (session st1) = "")
    by (rewrite (all_refused_topic _ _ _ Hall); reflexivity).
  split; [exact Ht|].
  destruct (Data_outcome r st1) as [[Hp _]|[(e & He)|(m & Hm & HD)]].
  - left. rewrite Hp. reflexivity.
  - left. rewrite He. reflexivity.
  - right. exists m. rewrite HD, Hm, Ht.
    split; [destruct (sub _ _); reflexivity | reflexivity].
Qed.

(** C10.  [Data] does not look at whether a topic was set.  On a session
    whose topic is empty, a text/plain message with a readable body and a
    decodable subject reaches the publisher: the message handed over has
    the empty topic, and [Data] returns what the publisher answers. *)
Theorem Data_without_topic r st b msg title :
  topic (session st) = "" ->
  io_ReadAll r = (b, None) ->
  mail_ReadMessage b = Ok msg ->
  media_type (Header msg) "text/plain" ->
  rd_err (Body msg) = None ->
  decoded_subject msg = Ok title ->
  0 <= MessageLimit (config (backend st)) ->
  exists m st',
    Data r st = Returns (sub (backend st) m) st'
    /\ published st' = m :: published st
    /\ Topic m = "".
Proof.
  intros Ht Hr Hmsg Hct Hbody Hsub Hlimit.
  destruct (truncate_total (TrimSpace (rd_bytes (Body msg))) _ Hlimit)
    as (body & Htr).
  pose proof (Data_publishes _ _ _ _ _ _ _ Hr Hmsg
                (readMailBody_plain _ Hct Hbody) Htr Hsub) as HD.
  simpl in HD. eexists _, _. split; [exact HD|].
  split; [destruct (sub _ _); reflexivity|].
  rewrite flip_Topic. exact Ht.
Qed.

(** The counters over a run of calls: each call adds at most one, to one
    of them, so they stay below the largest [int64] for any run shorter
    than that. *)
Lemma step_counts c st :
  0 <= success (backend st) ->
  0 <= failure (backend st) ->
  success (backend st) + failure (backend st) < int64_max ->
  success (backend st) <= success (backend (step c st))
  /\ failure (backend st) <= failure (backend (step c st))
  /\ success (backend (step c st)) + failure (backend (step c st))
     <= success (backend st) + failure (backend st) + 1.
Proof.
  intros Hs Hf Hsum.
  assert (Hs1 : incr64 (success (backend st)) = success (backend st) + 1).
  { apply incr64_below_max. unfold below_max, int64_min, int64_max in *. lia. }
  assert (Hf1 : incr64 (failure (backend st)) = failure (backend st) + 1).
  { apply incr64_below_max. unfold below_max, int64_min, int64_max in *. lia. }
  destruct c as [from|to|r| |]; simpl; try lia.
  - destruct (Rcpt_outcome to st) as [(e & ->)|(t & ->)]; simpl; lia.
  - destruct (Data_outcome r st) as [[-> _]|[(e & ->)|(m & _ & ->)]]; simpl;
      try lia.
    destruct (sub (backend st) m); simpl; lia.
Qed.

Lemma run_counts cs st :
  0 <= success (backend st) ->
  0 <= failure (backend st) ->
  success (backend st) + failure (backend st) + Z.of_nat (length cs) <= int64_max ->
  0 <= success (backend (run cs st))
  /\ 0 <= failure (backend (run cs st))
  /\ success (backend (run cs st)) + failure (backend (run cs st))
     <= success (backend st) + failure (backend st) + Z.of_nat (length cs).
Proof.
  revert st. induction cs as [|c cs IH]; intros st Hs Hf Hsum.
  - simpl in *. lia.
  - change (run (c :: cs) st) with (run cs (step c st)).
    rewrite length_cons, Nat2Z.inj_succ in *.
    destruct (step_counts c st Hs Hf) as (Hs' & Hf' & Hsum'); [lia|].
    destruct (IH (step c st)) as (Hs2 & Hf2 & Hsum2); lia.
Qed.

Lemma run_below_max cs conf sub :
  Z.of_nat (length cs) < int64_max ->
  below_max (success (backend (run cs (new_store conf sub))))
  /\ below_max (failure (backend (run cs (new_store conf sub)))).
Proof.
  intros Hlen.
  destruct (run_counts cs (new_store conf sub)) as (Hs & Hf & Hsum);
    simpl; try lia.
  simpl in Hsum. unfold below_max, int64_min in *. lia.
Qed.

End Session.

(** C9.  The limit is not applied after the swap.  Whenever the body trims
    to nothing and the decoded subject is longer than the limit, the message
    handed to the publisher is the whole subject, longer than the limit.
    Such an input exists: a mail with the subject "A long subject line", a
    blank body and a limit of 8. *)
Theorem title_not_truncated :
  (forall (E : Env) r st b msg raw title,
      io_ReadAll r = (b, None) ->
      mail_ReadMessage b = Ok msg ->
      readMailBody msg = (raw, None) ->
      TrimSpace raw = "" ->
      decoded_subject msg = Ok title ->
      0 <= MessageLimit (config (backend st)) < len title ->
      exists m,
        Data r st = Returns (sub (backend st) m)
                      (counted (sub (backend st) m) (log_publish m st))
        /\ Message m = title
        /\ MessageLimit (config (backend st)) < len (Message m))
  /\ (exists m,
        Data (H:=Go.env) (Sample.plain "A long subject line" "  ") Sample.accepted
        = Returns None (incr_success (log_publish m Sample.accepted))
        /\ Message m = "A long subject line"
        /\ MessageLimit Sample.conf < len (Message m)).
Proof.
  split.
  - intros E r st b msg raw title Hr Hmsg Hbody Hraw Hsub [Hl Ht].
    assert (Hne : title <> "").
    { intros ->. unfold len in Ht. simpl in Ht. lia. }
    assert (Htr : truncate (TrimSpace raw) (MessageLimit (config (backend st)))
                  = Some "").
    { rewrite Hraw. apply truncate_short. unfold len. simpl. lia. }
    eexists. split.
    { apply (Data_publishes _ _ _ _ _ _ _ Hr Hmsg Hbody Htr Hsub). }
    rewrite flip_swaps by assumption. split; [reflexivity | exact Ht].
  - exists {| Topic := "mytopic"; Title := ""; Message := "A long subject line" |}.
    split; [vm_compute; reflexivity|]. split; [reflexivity|].
    vm_compute. reflexivity.
Qed.

(** The rule at work on that mail. *)
Lemma title_not_truncated_witness :
  exists m,
    Data (H:=Go.env) (Sample.plain "A long subject line" "  ") Sample.accepted
    = Returns (Sample.accept m)
        (counted (Sample.accept m) (log_publish m Sample.accepted))
    /\ Message m = "A long subject line"
    /\ 8 < len (Message m).
Proof.
  apply (proj1 title_not_truncated Go.env
           (Sample.plain "A long subject line" "  ") Sample.accepted
           (Sample.plain_text "A long subject line" "  ")
           (Sample.parsed (Sample.plain_text "A long subject line" "  "))
           "  " "A long subject line").
  - reflexivity.
  - vm_compute. reflexivity.
  - vm_compute. reflexivity.
  - vm_compute. reflexivity.
  - vm_compute. reflexivity.
  - vm_compute. split; [discriminate | reflexivity].
Defined.

(** C2 as written fails: after a recipient was accepted, a successful
    [Data] call leaves the topic "mytopic" in the session. *)
Lemma Data_leaves_topic_set :
  exists st',
    Data (H:=Go.env) (Sample.plain "Hi" "World") Sample.accepted = Returns None st'
    /\ topic (session st') = "mytopic"
    /\ topic (session st') <> "".
Proof.
  eexists. split; [vm_compute; reflexivity|].
  split; [reflexivity | discriminate].
Qed.

(** The theorem at work on that call. *)
Lemma Data_keeps_topic_witness :
  topic (session
           (incr_success
              (log_publish {| Topic := "mytopic"; Title := "Hi"; Message := "World" |}
                 Sample.accepted)))
  = topic (session Sample.accepted).
Proof.
  apply (Data_keeps_topic (H:=Go.env) (Sample.plain "Hi" "World")).
  vm_compute. reflexivity.
Defined.

(** The rule at work on a mail with the subject "Hello" and no body. *)
Lemma swap_rule_witness :
  exists m,
    Data (H:=Go.env) (Sample.plain "Hello" "") Sample.accepted
    = Returns (Sample.accept m)
        (counted (Sample.accept m) (log_publish m Sample.accepted))
    /\ Title m = "" /\ Message m = "Hello".
Proof.
  destruct (swap_rule (H:=Go.env) (Sample.plain "Hello" "") Sample.accepted
              (Sample.plain_text "Hello" "")
              (Sample.parsed (Sample.plain_text "Hello" ""))
              "" "" "Hello")
    as (m & HD & _ & _ & _ & Hhello & _).
  - reflexivity.
  - vm_compute. reflexivity.
  - vm_compute. reflexivity.
  - vm_compute. reflexivity.
  - vm_compute. reflexivity.
  - exists m. split; [exact HD|]. apply Hhello; reflexivity.
Defined.

(** C5 as written fails: the body of the mail trims to "", within the
    limit of 8, and the message handed to the publisher is "Hello", not the
    trimmed body. *)
Lemma empty_body_gives_way_to_title :
  readMailBody (H:=Go.env) (Sample.parsed (Sample.plain_text "Hello" " ")) = (" ", None)
  /\ len (TrimSpace " ") <= MessageLimit Sample.conf
  /\ exists m,
      Data (H:=Go.env) (Sample.plain "Hello" " ") Sample.accepted
      = Returns None (incr_success (log_publish m Sample.accepted))
      /\ Message m = "Hello"
      /\ Message m <> TrimSpace " ".
Proof.
  split; [vm_compute; reflexivity|]. split; [vm_compute; discriminate|].
  exists {| Topic := "mytopic"; Title := ""; Message := "Hello" |}.
  split; [vm_compute; reflexivity|]. split; [reflexivity|].
  vm_compute. discriminate.
Qed.

(** The rule at work on a body of 22 bytes under a limit of 8. *)
Lemma truncation_rule_witness :
  exists m,
    Data (H:=Go.env) (Sample.plain "Hi" "  A body of many bytes  ") Sample.accepted
    = Returns (Sample.accept m)
        (counted (Sample.accept m) (log_publish m Sample.accepted))
    /\ len (Message m) = 8
    /\ Message m = "A body o".
Proof.
  destruct (truncation_rule (H:=Go.env)
              (Sample.plain "Hi" "  A body of many bytes  ") Sample.accepted
              (Sample.plain_text "Hi" "  A body of many bytes  ")
              (Sample.parsed (Sample.plain_text "Hi" "  A body of many bytes  "))
              "  A body of many bytes  " "Hi")
    as (m & body & HD & Hlong & _ & Hkeep & _).
  - reflexivity.
  - vm_compute. reflexivity.
  - vm_compute. reflexivity.
  - vm_compute. reflexivity.
  - vm_compute. discriminate.
  - exists m. split; [exact HD|].
    destruct Hlong as [Hlen Hb]; [vm_compute; reflexivity|].
    assert (Hm : Message m = body).
    { apply Hkeep. left. rewrite Hb. vm_compute. discriminate. }
    rewrite Hm. split; [exact Hlen|]. rewrite Hb. vm_compute. reflexivity.
Defined.

(** The counters at work on a fresh backend: a refused recipient and an
    unreadable message each add one failure, a delivered message adds one
    success, an accepted recipient adds nothing, and a message the
    publisher refuses adds one failure. *)
Lemma counters_follow_errors_witness :
  Counts (backend (store_after (Rcpt (H:=Go.env) "mytopic@example.com" Sample.idle)))
  = (0, 1)
  /\ Counts (backend (store_after (Data (H:=Go.env) Sample.garbage Sample.idle)))
     = (0, 1)
  /\ Counts (backend (store_after
                        (Data (H:=Go.env) (Sample.plain "Hi" "World") Sample.idle)))
     = (1, 0)
  /\ Counts (backend (store_after
                        (Rcpt (H:=Go.env) "ntfy-mytopic@ntfy.sh" Sample.idle)))
     = (0, 0)
  /\ Counts (backend (store_after
                        (Data (H:=Go.env) (Sample.plain "Hi" "World")
                           (new_store Sample.conf Sample.refuse))))
     = (0, 1).
Proof.
  assert (H0 : below_max 0) by (vm_compute; split; [discriminate | reflexivity]).
  destruct (counters_follow_errors (H:=Go.env)
              (new_store Sample.conf Sample.refuse) H0 H0)
    as (_ & HDr & _).
  assert (HD3 : Data (H:=Go.env) (Sample.plain "Hi" "World")
                  (new_store Sample.conf Sample.refuse)
                = Returns (Some (libError "publish failed"))
                    (incr_failure
                       (log_publish {| Topic := ""; Title := "Hi"; Message := "World" |}
                          (new_store Sample.conf Sample.refuse))))
    by (vm_compute; reflexivity).
  destruct (HDr _ _ _ HD3) as [Hf5 Hs5].
  destruct (counters_follow_errors (H:=Go.env) Sample.idle H0 H0)
    as (HRe & HDe & HDn & HRn).
  assert (HR1 : Rcpt (H:=Go.env) "mytopic@example.com" Sample.idle
                = Returns (Some errInvalidDomain) (incr_failure Sample.idle))
    by (vm_compute; reflexivity).
  assert (HD1 : Data (H:=Go.env) Sample.garbage Sample.idle
                = Returns (Some (libError "malformed MIME header line"))
                    (incr_failure Sample.idle))
    by (vm_compute; reflexivity).
  assert (HD2 : Data (H:=Go.env) (Sample.plain "Hi" "World") Sample.idle
                = Returns None
                    (incr_success
                       (log_publish {| Topic := ""; Title := "Hi"; Message := "World" |}
                          Sample.idle)))
    by (vm_compute; reflexivity).
  assert (HR2 : Rcpt (H:=Go.env) "ntfy-mytopic@ntfy.sh" Sample.idle
                = Returns None (set_topic "mytopic" Sample.idle))
    by (vm_compute; reflexivity).
  destruct (HRe _ _ _ HR1) as [Hf1 Hs1]. destruct (HDe _ _ _ HD1) as [Hf2 Hs2].
  destruct (HDn _ _ HD2) as [Hs3 Hf3]. destruct (HRn _ _ HR2) as [Hs4 Hf4].
  rewrite HR1, HD1, HD2, HR2, HD3. cbn [store_after]. unfold Counts.
  split; [|split; [|split; [|split]]].
  - rewrite Hf1, Hs1. reflexivity.
  - rewrite Hf2, Hs2. reflexivity.
  - rewrite Hf3, Hs3. reflexivity.
  - rewrite Hf4, Hs4. reflexivity.
  - rewrite Hf5, Hs5. reflexivity.
Defined.

(** [Reset] at work: a session that holds "mytopic" is reset, a recipient
    of another domain is refused, and the mail that follows is published
    with an empty topic. *)
Lemma Reset_clears_topic_witness :
  topic (session (store_after (Reset Sample.accepted))) = ""
  /\ topic (session (incr_failure (set_topic "" Sample.accepted))) = ""
  /\ (published
        (store_after
           (Data (H:=Go.env) (Sample.plain "Hi" "World")
              (incr_failure (set_topic "" Sample.accepted))))
      = published (incr_failure (set_topic "" Sample.accepted))
      \/ exists m,
          published
            (store_after
               (Data (H:=Go.env) (Sample.plain "Hi" "World")
                  (incr_failure (set_topic "" Sample.accepted))))
          = m :: published (incr_failure (set_topic "" Sample.accepted))
          /\ Topic m = "").
Proof.
  apply (Reset_clears_topic (H:=Go.env) Sample.accepted ["mytopic@example.com"]).
  vm_compute. reflexivity.
Defined.

(** [Data] on a fresh session: the mail is published with an empty
    topic. *)
Lemma Data_without_topic_witness :
  exists m st',
    Data (H:=Go.env) (Sample.plain "Hi" "World") Sample.idle
    = Returns (Sample.accept m) st'
    /\ published st' = m :: published Sample.idle
    /\ Topic m = "".
Proof.
  apply (Data_without_topic (H:=Go.env) (Sample.plain "Hi" "World") Sample.idle
           (Sample.plain_text "Hi" "World")
           (Sample.parsed (Sample.plain_text "Hi" "World")) "Hi").
  - reflexivity.
  - reflexivity.
  - vm_compute. reflexivity.
  - exists ∅. vm_compute. reflexivity.
  - reflexivity.
  - vm_compute. reflexivity.
  - vm_compute. discriminate.
Defined.


(** * Further properties *)

(** ** How [Data] ends, stage by stage *)

Section DataStages.
Context `{Env}.

Lemma Data_cases r st :
  match io_ReadAll r with
  | (_, Some e) => Data r st = Returns (Some e) (incr_failure st)
  | (b, None) =>
      match mail_ReadMessage b with
      | Err e => Data r st = Returns (Some e) (incr_failure st)
      | Ok msg =>
          match readMailBody msg with
          | (_, Some e) => Data r st = Returns (Some e) (incr_failure st)
          | (raw, None) =>
              match truncate (TrimSpace raw) (MessageLimit (config (backend st))) with
              | None => Data r st = Panics st
              | Some body =>
                  match decoded_subject msg with
                  | Err e => Data r st = Returns (Some e) (incr_failure st)
                  | Ok title =>
                      let m := flip {| Topic := topic (session st);
                                       Title := title; Message := body |} in
                      Data r st = Returns (sub (backend st) m)
                                    (counted (sub (backend st) m) (log_publish m st))
                  end
              end
          end
      end
  end.
Proof.
  destruct (io_ReadAll r) as [b [e|]] eqn:Hr.
  { unfold Data, withFailCount, try_pair. rewrite Hr. reflexivity. }
  destruct (mail_ReadMessage b) as [msg|e] eqn:Hmsg.
  2: { unfold Data, withFailCount, try_pair, try. rewrite Hr, Hmsg. reflexivity. }
  destruct (readMailBody msg) as [raw [e|]] eqn:Hbody.
  { unfold Data, withFailCount, try_pair, try. rewrite Hr, Hmsg, Hbody.
    reflexivity. }
  destruct (truncate _ _) as [body|] eqn:Htr.
  2: { unfold Data, withFailCount, try_pair, try, panic.
       rewrite Hr, Hmsg, Hbody, Htr. reflexivity. }
  destruct (decoded_subject msg) as [title|e] eqn:Hsub.
  { exact (Data_publishes _ _ _ _ _ _ _ Hr Hmsg Hbody Htr Hsub). }
  unfold decoded_subject in Hsub.
  unfold Data, withFailCount, try_pair, try. rewrite Hr, Hmsg, Hbody, Htr.
  destruct (String.eqb _ "") eqn:Hempty; [discriminate Hsub|].
  simpl. rewrite Hsub. reflexivity.
Qed.

Lemma truncate_bound s limit body :
  truncate s limit = Some body -> len body <= limit.
Proof.
  unfold truncate, slice_prefix. intros Htr.
  destruct (Z.gtb_spec (len s) limit) as [Hgt|Hle].
  - destruct (Z.ltb_spec limit 0); [discriminate|].
    destruct (Z.ltb_spec (len s) limit); [discriminate|].
    simpl in Htr. injection Htr as <-.
    unfold len in *. rewrite length_slice_to; lia.
  - injection Htr as <-. exact Hle.
Qed.

Lemma truncate_None s limit : truncate s limit = None -> limit < 0.
Proof.
  unfold truncate, slice_prefix. intros Htr.
  destruct (Z.gtb_spec (len s) limit) as [Hgt|Hle]; [|discriminate].
  destruct (Z.ltb_spec limit 0); [assumption|].
  destruct (Z.ltb_spec (len s) limit); [lia | discriminate].
Qed.

Lemma flip_well_titled m : well_titled (flip m).
Proof.
  unfold well_titled, flip.
  destruct (String.eqb_spec (Title m) "") as [Ht|Ht]; simpl.
  - intros Hne. contradiction.
  - destruct (String.eqb_spec (Message m) "") as [Hm|Hm]; simpl.
    + intros _. exact Ht.
    + intros _. exact Hm.
Qed.

Lemma flip_keeps_title m : Title (flip m) <> "" -> flip m = m.
Proof.
  unfold flip. destruct (_ && _); simpl; [intros Hne; contradiction | reflexivity].
Qed.

End DataStages.

Lemma cons_neq {A} (x : A) (l : list A) : x :: l <> l.
Proof.
  intros Heq. apply (f_equal (@length A)) in Heq. simpl in Heq. lia.
Qed.

Section DataProperties.
Context `{Env}.

(** X1.  [Data] panics exactly when the limit is negative and the stream
    delivers a message with a plain-text body: the cut [body[:limit]] is
    then out of range.  The panic leaves the store as it was, so the
    failure is not counted. *)
Theorem Data_panics_iff r st st' :
  Data r st = Panics st'
  <-> st' = st
      /\ MessageLimit (config (backend st)) < 0
      /\ exists msg raw, reads r msg raw.
Proof.
  split.
  - intros HD. pose proof (Data_cases r st) as Hc.
    destruct (io_ReadAll r) as [b [e|]] eqn:Hr;
      [rewrite HD in Hc; discriminate|].
    destruct (mail_ReadMessage b) as [msg|e] eqn:Hmsg;
      [|rewrite HD in Hc; discriminate].
    destruct (readMailBody msg) as [raw [e|]] eqn:Hbody;
      [rewrite HD in Hc; discriminate|].
    destruct (truncate _ _) as [body|] eqn:Htr.
    + destruct (decoded_subject msg); simpl in Hc; rewrite HD in Hc;
        discriminate.
    + rewrite HD in Hc. injection Hc as ->.
      split; [reflexivity|]. split; [exact (truncate_None _ _ Htr)|].
      exists msg, raw, b. auto.
  - intros (-> & Hl & msg & raw & b & Hr & Hmsg & Hbody).
    exact (Data_panics _ _ _ _ _ Hr Hmsg Hbody Hl).
Qed.

(** X2.  [Data] returns the error [e] with nothing handed to the publisher
    exactly when a stage before the publisher fails with [e]: the error is
    passed on as it is, one failure is counted, and topic, success counter
    and published messages stay as they were. *)
Theorem Data_returns_stage_error r st e :
  stage_error r (MessageLimit (config (backend st))) e
  <-> Data r st = Returns (Some e) (incr_failure st).
Proof.
  pose proof (Data_cases r st) as Hc. split.
  - intros [b Hr|b Hr Hmsg|b msg partial Hr Hmsg Hbody
            |msg raw (b & Hr & Hmsg & Hbody) Hl Hsub].
    + rewrite Hr in Hc. exact Hc.
    + rewrite Hr, Hmsg in Hc. exact Hc.
    + rewrite Hr, Hmsg, Hbody in Hc. exact Hc.
    + rewrite Hr, Hmsg, Hbody in Hc.
      destruct (truncate _ _) as [body|] eqn:Htr.
      * rewrite Hsub in Hc. exact Hc.
      * apply truncate_None in Htr. lia.
  - intros HD.
    destruct (io_ReadAll r) as [b [e'|]] eqn:Hr.
    { rewrite HD in Hc. injection Hc as ->. exact (read_fails _ _ _ b Hr). }
    destruct (mail_ReadMessage b) as [msg|e'] eqn:Hmsg.
    2: { rewrite HD in Hc. injection Hc as ->.
         exact (message_fails _ _ _ b Hr Hmsg). }
    destruct (readMailBody msg) as [raw [e'|]] eqn:Hbody.
    { rewrite HD in Hc. injection Hc as ->.
      exact (body_fails _ _ _ b msg raw Hr Hmsg Hbody). }
    destruct (truncate _ _) as [body|] eqn:Htr;
      [|rewrite HD in Hc; discriminate].
    destruct (decoded_subject msg) as [title|e'] eqn:Hsub.
    + simpl in Hc. rewrite HD in Hc. injection Hc as _ Hst.
      apply (f_equal published) in Hst.
      destruct (sub _ _); simpl in Hst; symmetry in Hst;
        destruct (cons_neq _ _ Hst).
    + rewrite HD in Hc. injection Hc as ->.
      apply (subject_fails _ _ _ msg raw); [exists b; auto | | exact Hsub].
      pose proof (truncate_bound _ _ _ Htr). pose proof (len_nonneg body). lia.
Qed.

(** X3.  However a [Data] call ends, it leaves the session, the
    configuration and the publisher as they were, and it has handed the
    publisher nothing or exactly one message, which carries the session's
    topic. *)
Theorem Data_publishes_at_most_once r st :
  session (store_after (Data r st)) = session st
  /\ config (backend (store_after (Data r st))) = config (backend st)
  /\ sub (backend (store_after (Data r st))) = sub (backend st)
  /\ (published (store_after (Data r st)) = published st
      \/ exists m,
          published (store_after (Data r st)) = m :: published st
          /\ Topic m = topic (session st)).
Proof.
  destruct (Data_outcome r st) as [[-> _]|[(e & ->)|(m & Hm & ->)]]; simpl.
  - auto.
  - auto.
  - destruct (sub (backend st) m); simpl; eauto 10.
Qed.

(** X4.  A message that [Data] hands to the publisher never has a title
    without a body. *)
Theorem Data_publishes_well_titled r st m :
  published (store_after (Data r st)) = m :: published st ->
  well_titled m.
Proof.
  intros Hp. pose proof (Data_cases r st) as Hc.
  assert (Hsame : published (incr_failure st) = published st) by reflexivity.
  destruct (io_ReadAll r) as [b [e|]];
    [rewrite Hc in Hp; destruct (cons_neq _ _ (eq_sym Hp))|].
  destruct (mail_ReadMessage b) as [msg|e];
    [|rewrite Hc in Hp; destruct (cons_neq _ _ (eq_sym Hp))].
  destruct (readMailBody msg) as [raw [e|]];
    [rewrite Hc in Hp; destruct (cons_neq _ _ (eq_sym Hp))|].
  destruct (truncate _ _) as [body|];
    [|rewrite Hc in Hp; destruct (cons_neq _ _ (eq_sym Hp))].
  destruct (decoded_subject msg) as [title|e];
    [|rewrite Hc in Hp; destruct (cons_neq _ _ (eq_sym Hp))].
  simpl in Hc. rewrite Hc in Hp.
  assert (Hm : flip {| Topic := topic (session st); Title := title;
                       Message := body |} = m).
  { destruct (sub _ _); simpl in Hp; injection Hp as Hm; exact Hm. }
  rewrite <- Hm. apply flip_well_titled.
Qed.

(** X5.  A message that [Data] hands to the publisher is within the limit,
    unless it has no title and its body is the decoded subject of a mail
    whose own body was empty after the cut: only a subject that took the
    place of the body can exceed the limit. *)
Theorem Data_publishes_within_limit r st m :
  published (store_after (Data r st)) = m :: published st ->
  len (Message m) <= MessageLimit (config (backend st))
  \/ (Title m = ""
      /\ exists msg raw,
          reads r msg raw
          /\ truncate (TrimSpace raw) (MessageLimit (config (backend st))) = Some ""
          /\ decoded_subject msg = Ok (Message m)).
Proof.
  intros Hp. pose proof (Data_cases r st) as Hc.
  destruct (io_ReadAll r) as [b [e|]] eqn:Hr;
    [rewrite Hc in Hp; destruct (cons_neq _ _ (eq_sym Hp))|].
  destruct (mail_ReadMessage b) as [msg|e] eqn:Hmsg;
    [|rewrite Hc in Hp; destruct (cons_neq _ _ (eq_sym Hp))].
  destruct (readMailBody msg) as [raw [e|]] eqn:Hbody;
    [rewrite Hc in Hp; destruct (cons_neq _ _ (eq_sym Hp))|].
  destruct (truncate _ _) as [body|] eqn:Htr;
    [|rewrite Hc in Hp; destruct (cons_neq _ _ (eq_sym Hp))].
  destruct (decoded_subject msg) as [title|e] eqn:Hsub;
    [|rewrite Hc in Hp; destruct (cons_neq _ _ (eq_sym Hp))].
  simpl in Hc. rewrite Hc in Hp.
  assert (Hm : flip {| Topic := topic (session st); Title := title;
                       Message := body |} = m).
  { destruct (sub _ _); simpl in Hp; injection Hp as Hm; exact Hm. }
  rewrite <- Hm. unfold flip. simpl.
  destruct (String.eqb_spec title "") as [Ht|Ht]; simpl.
  - left. exact (truncate_bound _ _ _ Htr).
  - destruct (String.eqb_spec body "") as [Hb|Hb]; simpl.
    + right. split; [reflexivity|]. exists msg, raw.
      split; [exists b; auto|]. rewrite <- Hb. auto.
    + left. exact (truncate_bound _ _ _ Htr).
Qed.

End DataProperties.

(** ** Recipients and runs of calls *)

Section RunProperties.
Context `{Env}.

Lemma Rcpt_success_inv to st st' :
  Rcpt to st = Returns None st' ->
  exists t, resolves (config (backend st)) to t /\ st' = set_topic t st.
Proof.
  unfold Rcpt, withFailCount, try, return_err, ret, resolves.
  set (conf := config (backend st)).
  destruct (mail_ParseAddressList to) as [l|e] eqn:Hparse; [|discriminate].
  destruct l as [|a [|a' l]]; [discriminate| |discriminate].
  destruct (HasSuffix (Addr a) ("@" +:+ SMTPServerDomain conf)) eqn:Hsuf; simpl;
    [|discriminate].
  apply HasSuffix_inv in Hsuf.
  set (local := TrimSuffix (Addr a) ("@" +:+ SMTPServerDomain conf)) in *.
  destruct (String.eqb_spec (SMTPServerAddrPrefix conf) "") as [Hp|Hp]; simpl.
  - destruct (topicRegex_MatchString local) eqn:Hmatch; simpl; [|discriminate].
    intros Hr. injection Hr as <-. exists local. split; [|reflexivity].
    exists a. rewrite Hp, append_nil_l. auto.
  - destruct (HasPrefix local (SMTPServerAddrPrefix conf)) eqn:Hpre; simpl;
      [|discriminate].
    apply HasPrefix_inv in Hpre.
    set (t := TrimPrefix local (SMTPServerAddrPrefix conf)) in *.
    destruct (topicRegex_MatchString t) eqn:Hmatch; simpl; [|discriminate].
    intros Hr. injection Hr as <-. exists t. split; [|reflexivity].
    exists a. rewrite <- append_assoc, <- Hpre. auto.
Qed.

Lemma Data_outcome_well_titled r st :
  Data r st = Panics st
  \/ (exists e, Data r st = Returns (Some e) (incr_failure st))
  \/ (exists m,
        Topic m = topic (session st)
        /\ well_titled m
        /\ Data r st = Returns (sub (backend st) m)
                         (counted (sub (backend st) m) (log_publish m st))).
Proof.
  pose proof (Data_cases r st) as Hc.
  destruct (io_ReadAll r) as [b [e|]]; [eauto|].
  destruct (mail_ReadMessage b) as [msg|e]; [|eauto].
  destruct (readMailBody msg) as [raw [e|]]; [eauto|].
  destruct (truncate _ _) as [body|]; [|eauto].
  destruct (decoded_subject msg) as [title|e]; [|eauto].
  right. right.
  exists (flip {| Topic := topic (session st); Title := title; Message := body |}).
  split; [apply flip_Topic|].
  split; [apply flip_well_titled | exact Hc].
Qed.

(** Every call leaves the store as it was, counts a failure, sets a valid
    topic, or hands one message to the publisher and counts its answer. *)
Lemma step_cases c st :
  step c st = st
  \/ step c st = incr_failure st
  \/ (exists t, valid_topic t /\ step c st = set_topic t st)
  \/ (exists m,
        Topic m = topic (session st)
        /\ well_titled m
        /\ step c st = counted (sub (backend st) m) (log_publish m st)).
Proof.
  destruct c as [from|to|r| |]; simpl; auto.
  - destruct (Rcpt_outcome to st) as [(e & He)|(t & Ht)].
    + rewrite He. auto.
    + rewrite Ht. simpl. right. right. left.
      destruct (Rcpt_success_inv _ _ _ Ht) as (t' & (a & _ & _ & Hm) & Hst).
      exists t'. split; [right; exact Hm | exact Hst].
  - destruct (Data_outcome_well_titled r st)
      as [->|[(e & ->)|(m & Hm & Hw & ->)]]; simpl; eauto 10.
  - right. right. left. exists "". split; [left; reflexivity | reflexivity].
Qed.

Lemma run_cons c cs st : run (c :: cs) st = run cs (step c st).
Proof. reflexivity. Qed.

(** X6.  [Rcpt] returns nil only for a recipient that parses to exactly
    one address of the form prefix, topic, "@", domain, and the topic it
    stores is that one and matches the topic pattern; nothing but the topic
    changes. *)
Theorem Rcpt_accepts_only_resolved to st st' :
  Rcpt to st = Returns None st' ->
  resolves (config (backend st)) to (topic (session st'))
  /\ topicRegex_MatchString (topic (session st')) = true
  /\ backend st' = backend st
  /\ published st' = published st.
Proof.
  intros HR. destruct (Rcpt_success_inv _ _ _ HR) as (t & Hres & ->).
  simpl. destruct Hres as (a & Hp & Ha & Hm).
  split; [exists a; auto | auto].
Qed.

(** X7.  An accepted recipient leaves no trace once the next recipient is
    accepted or the session is reset: the store is the one that the second
    call alone would have left.  A refused recipient after an accepted one
    leaves the accepted topic in place. *)
Theorem accepted_recipient_is_overwritten to1 to2 st st1 :
  Rcpt to1 st = Returns None st1 ->
  (forall st2, Rcpt to2 st1 = Returns None st2 -> Rcpt to2 st = Returns None st2)
  /\ store_after (Reset st1) = store_after (Reset st)
  /\ (forall e st2,
        Rcpt to2 st1 = Returns (Some e) st2 ->
        topic (session st2) = topic (session st1)).
Proof.
  intros H1. destruct (Rcpt_success_inv _ _ _ H1) as (t1 & _ & ->).
  split; [|split].
  - intros st2 H2. destruct (Rcpt_success_inv _ _ _ H2) as (t2 & Hres & ->).
    exact (Rcpt_accepts st to2 t2 Hres).
  - reflexivity.
  - intros e st2 H2.
    destruct (Rcpt_outcome to2 (set_topic t1 st)) as [(e' & He)|(t & Ht)];
      rewrite H2 in *; [|discriminate].
    injection He as _ ->. reflexivity.
Qed.

(** X8.  No run of calls changes the configuration or the publisher of the
    backend, and the messages handed to the publisher only grow: the earlier
    ones stay, and a run adds at most one message per call. *)
Theorem run_keeps_backend cs st :
  config (backend (run cs st)) = config (backend st)
  /\ sub (backend (run cs st)) = sub (backend st)
  /\ exists news,
      published (run cs st) = news ++ published st
      /\ (length news <= length cs)%nat.
Proof.
  revert st. induction cs as [|c cs IH]; intros st.
  - split; [reflexivity|]. split; [reflexivity|]. exists []. split; [reflexivity|].
    simpl. lia.
  - rewrite run_cons. destruct (IH (step c st)) as (Hc & Hs & news & Hn & Hl).
    rewrite Hc, Hs, Hn.
    destruct (step_cases c st) as [->|[->|[(t & _ & ->)|(m & _ & _ & ->)]]];
      try (split; [reflexivity|]; split; [reflexivity|];
           exists news; split; [reflexivity | simpl; lia]).
    split; [destruct (sub (backend st) m); reflexivity|].
    split; [destruct (sub (backend st) m); reflexivity|].
    exists (news ++ [m]). split.
    + rewrite <- app_assoc. destruct (sub (backend st) m); reflexivity.
    + rewrite length_app. simpl. lia.
Qed.

End RunProperties.

Section RunInvariants.
Context `{Env}.

(** What holds before a run and is kept by the four effects of a call
    holds after the run. *)
Lemma run_invariant (P : Store -> Prop) :
  (forall st, P st -> P (incr_failure st)) ->
  (forall st t, valid_topic t -> P st -> P (set_topic t st)) ->
  (forall st m,
      Topic m = topic (session st) -> well_titled m -> P st ->
      P (counted (sub (backend st) m) (log_publish m st))) ->
  forall cs st, P st -> P (run cs st).
Proof.
  intros Hfail Htopic Hpub. induction cs as [|c cs IH]; intros st HP.
  - exact HP.
  - rewrite run_cons. apply IH.
    destruct (step_cases c st) as [->|[->|[(t & Ht & ->)|(m & Hm & Hw & ->)]]];
      auto.
Qed.

Lemma counted_published err m st :
  published (counted err (log_publish m st)) = m :: published st.
Proof. destruct err; reflexivity. Qed.

Lemma counted_session err m st :
  session (counted err (log_publish m st)) = session st.
Proof. destruct err; reflexivity. Qed.

Lemma counted_sub err m st :
  sub (backend (counted err (log_publish m st))) = sub (backend st).
Proof. destruct err; reflexivity. Qed.

(** X9.  From a new backend, whatever the calls, the session's topic is
    empty or matches the topic pattern, and so is the topic of every message
    handed to the publisher: no topic reaches the publisher unvalidated,
    but the empty topic does. *)
Theorem run_topics_are_valid cs conf sub0 :
  valid_topic (topic (session (run cs (new_store conf sub0))))
  /\ Forall (fun m => valid_topic (Topic m))
       (published (run cs (new_store conf sub0))).
Proof.
  apply (run_invariant
           (fun st => valid_topic (topic (session st))
                      /\ Forall (fun m => valid_topic (Topic m)) (published st))).
  - intros st HP. exact HP.
  - intros st t Ht [_ HP]. split; [exact Ht | exact HP].
  - intros st m Hm _ [Ht HP]. rewrite counted_session, counted_published.
    split; [exact Ht|]. constructor; [rewrite Hm; exact Ht | exact HP].
  - split; [left; reflexivity | constructor].
Qed.

(** X10.  From a new backend, whatever the calls, no message handed to the
    publisher has a title without a body. *)
Theorem run_publishes_well_titled cs conf sub0 :
  Forall well_titled (published (run cs (new_store conf sub0))).
Proof.
  apply (run_invariant (fun st => Forall well_titled (published st))).
  - intros st HP. exact HP.
  - intros st t _ HP. exact HP.
  - intros st m _ Hw HP. rewrite counted_published. constructor; assumption.
  - constructor.
Qed.

Lemma accepted_count_nonneg st : 0 <= accepted_count st.
Proof. unfold accepted_count. lia. Qed.

Lemma step_accepted_count c st :
  0 <= failure (backend st) ->
  success (backend st) = accepted_count st ->
  success (backend st) + failure (backend st) < int64_max ->
  success (backend (step c st)) = accepted_count (step c st).
Proof.
  intros Hf Hs Hsum. pose proof (accepted_count_nonneg st) as Hn.
  assert (Hs1 : incr64 (success (backend st)) = success (backend st) + 1).
  { apply incr64_below_max. unfold below_max, int64_min, int64_max in *. lia. }
  destruct (step_cases c st) as [->|[->|[(t & _ & ->)|(m & _ & _ & ->)]]];
    try exact Hs.
  unfold accepted_count in *.
  destruct (sub (backend st) m) as [e|] eqn:Hsub; simpl; rewrite Hsub; simpl.
  - exact Hs.
  - rewrite Hs1, Hs. lia.
Qed.

Lemma run_accepted_count cs st :
  0 <= failure (backend st) ->
  success (backend st) = accepted_count st ->
  success (backend st) + failure (backend st) + Z.of_nat (length cs) <= int64_max ->
  success (backend (run cs st)) = accepted_count (run cs st).
Proof.
  revert st. induction cs as [|c cs IH]; intros st Hf Hs Hsum.
  - exact Hs.
  - rewrite run_cons. rewrite length_cons, Nat2Z.inj_succ in Hsum.
    pose proof (accepted_count_nonneg st) as Hn.
    destruct (step_counts c st) as (Hs' & Hf' & Hsum'); [lia | exact Hf | lia|].
    apply IH; [lia | apply step_accepted_count; [exact Hf | exact Hs | lia] | lia].
Qed.

Lemma run_counts_monotone cs st :
  0 <= success (backend st) ->
  0 <= failure (backend st) ->
  success (backend st) + failure (backend st) + Z.of_nat (length cs) <= int64_max ->
  success (backend st) <= success (backend (run cs st))
  /\ failure (backend st) <= failure (backend (run cs st)).
Proof.
  revert st. induction cs as [|c cs IH]; intros st Hs Hf Hsum.
  - simpl. lia.
  - rewrite run_cons. rewrite length_cons, Nat2Z.inj_succ in Hsum.
    destruct (step_counts c st) as (Hs' & Hf' & Hsum'); [exact Hs | exact Hf | lia|].
    destruct (IH (step c st)) as [Hs2 Hf2]; lia.
Qed.

(** X11.  Over a run of calls that cannot wrap the counters, [success] and
    [failure] never decrease, and together they grow by at most one per
    call. *)
Theorem counters_grow_with_calls cs st :
  0 <= success (backend st) ->
  0 <= failure (backend st) ->
  success (backend st) + failure (backend st) + Z.of_nat (length cs) <= int64_max ->
  success (backend st) <= success (backend (run cs st))
  /\ failure (backend st) <= failure (backend (run cs st))
  /\ success (backend (run cs st)) + failure (backend (run cs st))
     <= success (backend st) + failure (backend st) + Z.of_nat (length cs).
Proof.
  intros Hs Hf Hsum.
  destruct (run_counts_monotone cs st Hs Hf Hsum) as [Hs' Hf'].
  destruct (run_counts cs st Hs Hf Hsum) as (_ & _ & Hsum').
  auto.
Qed.

(** X12.  On a new backend, after any run of fewer than 2^63 calls,
    [success] is exactly the number of messages handed to the publisher
    that the publisher accepted. *)
Theorem success_counts_accepted_messages cs conf sub0 :
  Z.of_nat (length cs) <= int64_max ->
  success (backend (run cs (new_store conf sub0)))
  = accepted_count (run cs (new_store conf sub0)).
Proof.
  intros Hlen. apply run_accepted_count; simpl; try reflexivity; lia.
Qed.

End RunInvariants.

Section Transactions.
Context `{Env}.

Lemma Data_session_and_published r st :
  session (store_after (Data r st)) = session st
  /\ (published (store_after (Data r st)) = published st
      \/ exists m,
          published (store_after (Data r st)) = m :: published st
          /\ Topic m = topic (session st)).
Proof.
  destruct (Data_outcome r st) as [[-> _]|[(e & ->)|(m & Hm & ->)]]; simpl.
  - auto.
  - auto.
  - rewrite counted_session, counted_published. eauto.
Qed.

(** X13.  A whole transaction.  [Mail], then [Rcpt] with a recipient that
    resolves to the topic [t], then [Data] with a mail the publisher
    accepts, then [Reset]: the publisher has received exactly one more
    message, under the topic [t]; one success is counted and no failure;
    and the session is left with an empty topic. *)
Theorem transaction_delivers from to r st t msg raw body title :
  resolves (config (backend st)) to t ->
  reads r msg raw ->
  truncate (TrimSpace raw) (MessageLimit (config (backend st))) = Some body ->
  decoded_subject msg = Ok title ->
  sub (backend st) (flip {| Topic := t; Title := title; Message := body |}) = None ->
  below_max (success (backend st)) ->
  let st' := run [Call_Mail from; Call_Rcpt to; Call_Data r; Call_Reset] st in
  published st'
  = flip {| Topic := t; Title := title; Message := body |} :: published st
  /\ topic (session st') = ""
  /\ success (backend st') = success (backend st) + 1
  /\ failure (backend st') = failure (backend st).
Proof.
  intros Hres (b & Hr & Hmsg & Hbody) Htr Hsub Hacc Hs. simpl.
  unfold run. simpl. rewrite (Rcpt_accepts st to t Hres). simpl.
  rewrite (Data_publishes r (set_topic t st) b msg raw body title
             Hr Hmsg Hbody Htr Hsub).
  simpl. rewrite Hacc. simpl.
  repeat split. apply incr64_below_max, Hs.
Qed.

(** X14.  Calls other than [Rcpt] and [Reset] never change the session's
    topic: after any run of [Mail], [Data] and [Logout] calls the topic is
    the one the run started with, and every message the run handed to the
    publisher carries it.  So a second [Data] without a new recipient
    publishes under the first one's topic. *)
Theorem quiet_run_keeps_topic cs st :
  forallb quiet cs = true ->
  topic (session (run cs st)) = topic (session st)
  /\ exists news,
      published (run cs st) = news ++ published st
      /\ Forall (fun m => Topic m = topic (session st)) news.
Proof.
  revert st. induction cs as [|c cs IH]; intros st Hq.
  - split; [reflexivity|]. exists []. split; [reflexivity | constructor].
  - simpl in Hq. apply andb_true_iff in Hq as [Hc Hcs]. rewrite run_cons.
    destruct (IH (step c st) Hcs) as (Ht & news & Hn & Hall).
    assert (Hstep : session (step c st) = session st
                    /\ (published (step c st) = published st
                        \/ exists m, published (step c st) = m :: published st
                                     /\ Topic m = topic (session st))).
    { destruct c as [from|to|r| |]; try discriminate Hc; simpl; auto.
      destruct (Data_session_and_published r st) as (Hs & Hp).
      auto. }
    destruct Hstep as [Hsess Hpub]. rewrite Hsess in *.
    split; [exact Ht|].
    destruct Hpub as [Hp|(m & Hp & Hm)]; rewrite Hp in Hn.
    + exists news. auto.
    + exists (news ++ [m]). rewrite <- app_assoc. split; [exact Hn|].
      apply Forall_app. split; [exact Hall | constructor; [exact Hm | constructor]].
Qed.

End Transactions.


(** ** More on the body extractor *)

Section ExtractorProperties.
Context `{Env}.

Lemma scanParts_success_inv parts final body :
  scanParts parts final = (body, None) ->
  exists pre A post,
    parts = pre ++ A :: post
    /\ Forall other_part pre
    /\ media_type (PartHeader A) "text/plain"
    /\ rd_err (PartBody A) = None
    /\ body = rd_bytes (PartBody A).
Proof.
  induction parts as [|p parts IH]; simpl; [discriminate|].
  destruct (mime_ParseMediaType _) as [[t params]|e] eqn:Ht; [|discriminate].
  destruct (String.eqb_spec t "text/plain") as [->|Hne]; simpl.
  - unfold io_ReadAll. destruct (rd_err (PartBody p)) eqn:Hr; [discriminate|].
    intros Hb. injection Hb as <-.
    exists [], p, parts. split; [reflexivity|]. split; [constructor|].
    split; [exists params; exact Ht | auto].
  - intros Hs. destruct (IH Hs) as (pre & A & post & -> & Hpre & HA & Hr & Hb).
    exists (p :: pre), A, post. split; [reflexivity|].
    split; [|auto]. constructor; [|exact Hpre].
    exists t. split; [exists params; exact Ht | exact Hne].
Qed.

Lemma scanParts_error_empty parts final body e :
  scanParts parts final = (body, Some e) -> body = "".
Proof.
  induction parts as [|p parts IH]; simpl.
  - intros Hs. injection Hs as <- _. reflexivity.
  - destruct (mime_ParseMediaType _) as [[t params]|e'];
      [|intros Hs; injection Hs as <- _; reflexivity].
    destruct (negb _); [exact IH|].
    destruct (rd_err (PartBody p)); intros Hs;
      [injection Hs as <- _; reflexivity | discriminate].
Qed.

Lemma scanParts_remove_other l1 p l2 final :
  other_part p ->
  scanParts (l1 ++ p :: l2) final = scanParts (l1 ++ l2) final.
Proof.
  intros Hp. induction l1 as [|q l1 IH].
  - apply scanParts_other, Hp.
  - simpl. destruct (mime_ParseMediaType _) as [[t params]|e]; [|reflexivity].
    destruct (negb _); [exact IH | reflexivity].
Qed.

Lemma multipart_of_reader msg ct params :
  mime_ParseMediaType (Header_Get (Header msg) "Content-Type") = Ok (ct, params) ->
  HasPrefix ct "multipart/" = true ->
  multipart_of msg
    (mr_parts (multipart_NewReader (Body msg) (param params "boundary")))
    (mr_end (multipart_NewReader (Body msg) (param params "boundary"))).
Proof.
  intros Hct Hpre. exists ct, params. split; [exact Hct|]. split; [exact Hpre|].
  destruct (multipart_NewReader _ _). reflexivity.
Qed.

(** X15.  Whenever the extraction succeeds, the body is the content of a
    text/plain part and of nothing else: of the message itself when its
    media type is text/plain, or of the first text/plain part of a
    multipart message, all parts before it having other media types. *)
Theorem readMailBody_success_inv msg body :
  readMailBody msg = (body, None) ->
  (media_type (Header msg) "text/plain"
   /\ rd_err (Body msg) = None
   /\ body = rd_bytes (Body msg))
  \/ (exists final pre A post,
        multipart_of msg (pre ++ A :: post) final
        /\ Forall other_part pre
        /\ media_type (PartHeader A) "text/plain"
        /\ rd_err (PartBody A) = None
        /\ body = rd_bytes (PartBody A)).
Proof.
  intros Hb.
  destruct (mime_ParseMediaType (Header_Get (Header msg) "Content-Type"))
    as [[ct params]|e] eqn:Hct;
    [|unfold readMailBody in Hb; rewrite Hct in Hb; discriminate].
  destruct (String.eqb_spec ct "text/plain") as [->|Hne].
  - left. unfold readMailBody, io_ReadAll in Hb. rewrite Hct in Hb. simpl in Hb.
    destruct (rd_err (Body msg)) eqn:Hr; [discriminate|].
    injection Hb as <-. split; [exists params; exact Hct | auto].
  - destruct (HasPrefix ct "multipart/") eqn:Hpre.
    + right. pose proof (multipart_of_reader _ _ _ Hct Hpre) as Hm.
      rewrite (readMailBody_multipart _ _ _ Hm) in Hb.
      destruct (scanParts_success_inv _ _ _ Hb)
        as (pre & A & post & Hparts & Hrest).
      rewrite Hparts in Hm.
      exists (mr_end (multipart_NewReader (Body msg) (param params "boundary"))),
        pre, A, post.
      split; [exact Hm | exact Hrest].
    + unfold readMailBody in Hb. rewrite Hct, Hpre in Hb.
      destruct (String.eqb_spec ct "text/plain"); [contradiction | discriminate].
Qed.

(** X16.  Whenever the extraction fails, the body it returns is empty: an
    error never comes with a part of the body. *)
Theorem readMailBody_error_has_no_body msg body e :
  readMailBody msg = (body, Some e) -> body = "".
Proof.
  unfold readMailBody.
  destruct (mime_ParseMediaType _) as [[ct params]|e'];
    [|intros Hb; injection Hb as <- _; reflexivity].
  destruct (String.eqb ct "text/plain").
  - destruct (io_ReadAll _) as [b [e'|]]; intros Hb;
      [injection Hb as <- _; reflexivity | discriminate].
  - destruct (HasPrefix ct "multipart/").
    + apply scanParts_error_empty.
    + intros Hb. injection Hb as <- _. reflexivity.
Qed.

(** X17.  A part with a media type other than text/plain is invisible to
    the extraction, wherever it stands: a multipart message gives the same
    result, body or error, as the message without that part.  A nested
    multipart part is such a part: it is not descended into. *)
Theorem readMailBody_ignores_other_parts msg1 msg2 l1 p l2 final :
  multipart_of msg1 (l1 ++ p :: l2) final ->
  multipart_of msg2 (l1 ++ l2) final ->
  other_part p ->
  readMailBody msg1 = readMailBody msg2.
Proof.
  intros H1 H2 Hp.
  rewrite (readMailBody_multipart _ _ _ H1), (readMailBody_multipart _ _ _ H2).
  apply scanParts_remove_other, Hp.
Qed.

(** X18.  When the first text/plain part of a multipart message cannot be
    read, the extraction fails with that read error; it does not go on to a
    later text/plain part. *)
Theorem readMailBody_read_error_is_final msg pre A post final e :
  multipart_of msg (pre ++ A :: post) final ->
  Forall other_part pre ->
  media_type (PartHeader A) "text/plain" ->
  rd_err (PartBody A) = Some e ->
  readMailBody msg = ("", Some e).
Proof.
  intros Hm Hpre (params & Ht) Hr.
  rewrite (readMailBody_multipart _ _ _ Hm), scanParts_skip by assumption.
  simpl. rewrite Ht. simpl. unfold io_ReadAll. rewrite Hr. reflexivity.
Qed.

(** X19.  A message whose media type is neither text/plain nor multipart is
    refused with [errUnsupportedContentType], whatever its body: an
    HTML-only mail is not delivered. *)
Theorem readMailBody_unsupported msg ct :
  media_type (Header msg) ct ->
  ct <> "text/plain" ->
  HasPrefix ct "multipart/" = false ->
  readMailBody msg = ("", Some errUnsupportedContentType).
Proof.
  intros (params & Hct) Hne Hpre. unfold readMailBody. rewrite Hct, Hpre.
  destruct (String.eqb_spec ct "text/plain"); [contradiction | reflexivity].
Qed.

(** X20.  A message whose media type is text/plain yields its whole body,
    byte for byte, whatever parameters the Content-Type carries; when the
    body cannot be read, the read error and no body. *)
Theorem readMailBody_single_part msg :
  media_type (Header msg) "text/plain" ->
  readMailBody msg
  = match rd_err (Body msg) with
    | None => (rd_bytes (Body msg), None)
    | Some e => ("", Some e)
    end.
Proof.
  intros (params & Hct). unfold readMailBody, io_ReadAll. rewrite Hct. simpl.
  destruct (rd_err (Body msg)); reflexivity.
Qed.

End ExtractorProperties.

(** ** The further properties at work *)

(** Under a limit of -1 the mail "Hi" / "World" makes [Data] panic. *)
Lemma Data_panics_iff_witness :
  Data (H:=Go.env) (Sample.plain "Hi" "World") Scenario.idle_negative
  = Panics Scenario.idle_negative.
Proof.
  apply (proj2 (Data_panics_iff (H:=Go.env) (Sample.plain "Hi" "World")
                  Scenario.idle_negative Scenario.idle_negative)).
  split; [reflexivity|]. split; [vm_compute; reflexivity|].
  exists (Sample.parsed (Sample.plain_text "Hi" "World")), "World",
    (Sample.plain_text "Hi" "World").
  split; [reflexivity|]. split; vm_compute; reflexivity.
Defined.

(** A stream without a header block fails in the message parser. *)
Lemma Data_returns_stage_error_witness :
  Data (H:=Go.env) Sample.garbage Sample.idle
  = Returns (Some (libError "malformed MIME header line"))
      (incr_failure Sample.idle).
Proof.
  apply (proj1 (Data_returns_stage_error (H:=Go.env) Sample.garbage Sample.idle
                  (libError "malformed MIME header line"))).
  apply (message_fails (H:=Go.env) _ _ _ "no header here").
  - reflexivity.
  - vm_compute. reflexivity.
Defined.

(** The mail "Hello" without body is published as a body without title. *)
Lemma Data_publishes_well_titled_witness :
  well_titled {| Topic := "mytopic"; Title := ""; Message := "Hello" |}.
Proof.
  apply (Data_publishes_well_titled (H:=Go.env) (Sample.plain "Hello" "")
           Sample.accepted).
  vm_compute. reflexivity.
Defined.

(** The long body is published within the limit of 8. *)
Lemma Data_publishes_within_limit_witness :
  len (Message Scenario.hi_cut) <= MessageLimit (config (backend Sample.accepted))
  \/ (Title Scenario.hi_cut = ""
      /\ exists msg raw,
          reads (H:=Go.env) (Sample.plain "Hi" "  A body of many bytes  ") msg raw
          /\ truncate (TrimSpace raw) (MessageLimit (config (backend Sample.accepted)))
             = Some ""
          /\ decoded_subject (H:=Go.env) msg = Ok (Message Scenario.hi_cut)).
Proof.
  apply (Data_publishes_within_limit (H:=Go.env)
           (Sample.plain "Hi" "  A body of many bytes  ") Sample.accepted).
  vm_compute. reflexivity.
Defined.

(** The accepted recipient resolves to the stored topic. *)
Lemma Rcpt_accepts_only_resolved_witness :
  resolves (H:=Go.env) (config (backend Sample.idle)) "ntfy-mytopic@ntfy.sh"
    (topic (session (set_topic "mytopic" Sample.idle)))
  /\ topicRegex_MatchString (Env:=Go.env)
       (topic (session (set_topic "mytopic" Sample.idle))) = true
  /\ backend (set_topic "mytopic" Sample.idle) = backend Sample.idle
  /\ published (set_topic "mytopic" Sample.idle) = published Sample.idle.
Proof.
  apply (Rcpt_accepts_only_resolved (H:=Go.env) "ntfy-mytopic@ntfy.sh").
  vm_compute. reflexivity.
Defined.

(** Two accepted recipients in a row: the session holds the second. *)
Lemma accepted_recipient_is_overwritten_witness :
  Rcpt (H:=Go.env) "ntfy-second@ntfy.sh" Sample.idle
  = Returns None (set_topic "second" Sample.idle)
  /\ store_after (Reset Sample.accepted) = store_after (Reset Sample.idle).
Proof.
  destruct (accepted_recipient_is_overwritten (H:=Go.env)
              "ntfy-mytopic@ntfy.sh" "ntfy-second@ntfy.sh"
              Sample.idle Sample.accepted)
    as (Hnext & Hreset & _).
  - vm_compute. reflexivity.
  - split; [|exact Hreset]. apply Hnext. vm_compute. reflexivity.
Defined.

(** A refused recipient and a delivered mail: one failure, one success. *)
Lemma counters_grow_with_calls_witness :
  let st' := run (H:=Go.env)
               [Call_Rcpt "mytopic@example.com"; Call_Data (Sample.plain "Hi" "World")]
               Sample.idle in
  success (backend Sample.idle) <= success (backend st')
  /\ failure (backend Sample.idle) <= failure (backend st')
  /\ success (backend st') + failure (backend st')
     <= success (backend Sample.idle) + failure (backend Sample.idle) + 2.
Proof.
  apply (counters_grow_with_calls (H:=Go.env)
           [Call_Rcpt "mytopic@example.com"; Call_Data (Sample.plain "Hi" "World")]
           Sample.idle); vm_compute; discriminate.
Defined.

(** With a publisher that refuses every message, two delivered mails leave
    [success] at 0. *)
Lemma success_counts_accepted_messages_witness :
  success (backend
             (run (H:=Go.env)
                [Call_Data (Sample.plain "Hi" "World");
                 Call_Data (Sample.plain "Hello" "")]
                (new_store Sample.conf Sample.refuse)))
  = accepted_count
      (run (H:=Go.env)
         [Call_Data (Sample.plain "Hi" "World"); Call_Data (Sample.plain "Hello" "")]
         (new_store Sample.conf Sample.refuse)).
Proof.
  apply (success_counts_accepted_messages (H:=Go.env)).
  vm_compute. discriminate.
Defined.

(** One transaction on a fresh session. *)
Lemma transaction_delivers_witness :
  let st' := run (H:=Go.env)
               [Call_Mail "alice@example.com"; Call_Rcpt "ntfy-mytopic@ntfy.sh";
                Call_Data (Sample.plain "Hi" "World"); Call_Reset]
               Sample.idle in
  published st' = [Scenario.hi_world]
  /\ topic (session st') = ""
  /\ success (backend st') = 1
  /\ failure (backend st') = 0.
Proof.
  apply (transaction_delivers (H:=Go.env) "alice@example.com"
           "ntfy-mytopic@ntfy.sh" (Sample.plain "Hi" "World") Sample.idle
           "mytopic" (Sample.parsed (Sample.plain_text "Hi" "World"))
           "World" "World" "Hi").
  - exists {| Name := ""; Addr := "ntfy-mytopic@ntfy.sh" |}.
    repeat split; reflexivity.
  - exists (Sample.plain_text "Hi" "World").
    split; [reflexivity|]. split; vm_compute; reflexivity.
  - vm_compute. reflexivity.
  - vm_compute. reflexivity.
  - reflexivity.
  - vm_compute. split; [discriminate | reflexivity].
Defined.

(** Two mails after one accepted recipient: both go out under "mytopic". *)
Lemma quiet_run_keeps_topic_witness :
  topic (session
           (run (H:=Go.env)
              [Call_Data (Sample.plain "Hi" "World"); Call_Mail "alice@example.com";
               Call_Data (Sample.plain "Hello" "")]
              Sample.accepted))
  = topic (session Sample.accepted)
  /\ exists news,
      published
        (run (H:=Go.env)
           [Call_Data (Sample.plain "Hi" "World"); Call_Mail "alice@example.com";
            Call_Data (Sample.plain "Hello" "")]
           Sample.accepted)
      = news ++ published Sample.accepted
      /\ Forall (fun m => Topic m = topic (session Sample.accepted)) news.
Proof.
  apply (quiet_run_keeps_topic (H:=Go.env)). reflexivity.
Defined.

(** The body "A" of the message with the parts text/html, "A", "B" is the
    content of its first text/plain part. *)
Lemma readMailBody_success_inv_witness :
  let msg := Sample.parsed
               (Sample.multipart [Sample.html_part; Sample.part_A; Sample.part_B]) in
  (media_type (H:=Go.env) (Header msg) "text/plain"
   /\ rd_err (Body msg) = None
   /\ "A" = rd_bytes (Body msg))
  \/ (exists final pre A post,
        multipart_of (H:=Go.env) msg (pre ++ A :: post) final
        /\ Forall (other_part (H:=Go.env)) pre
        /\ media_type (H:=Go.env) (PartHeader A) "text/plain"
        /\ rd_err (PartBody A) = None
        /\ "A" = rd_bytes (PartBody A)).
Proof.
  apply (readMailBody_success_inv (H:=Go.env)). vm_compute. reflexivity.
Defined.

(** A text/html mail is refused, and no body comes with the error. *)
Lemma readMailBody_error_has_no_body_witness :
  fst (readMailBody (H:=Go.env) (Sample.parsed Scenario.html_mail)) = "".
Proof.
  apply (readMailBody_error_has_no_body (H:=Go.env)
           (Sample.parsed Scenario.html_mail) _ errUnsupportedContentType).
  vm_compute. reflexivity.
Defined.

(** The parts image/png, text/html, "A" give what image/png, "A" give. *)
Lemma readMailBody_ignores_other_parts_witness :
  readMailBody (H:=Go.env)
    (Sample.parsed
       (Sample.multipart [Sample.image_part; Sample.html_part; Sample.part_A]))
  = readMailBody (H:=Go.env)
      (Sample.parsed (Sample.multipart [Sample.image_part; Sample.part_A])).
Proof.
  apply (readMailBody_ignores_other_parts (H:=Go.env) _ _
           [Scenario.part "image/png" "PNG"]
           (Scenario.part "text/html" "<p>A page</p>")
           [Scenario.part "text/plain" "A"] io_EOF).
  - exists "multipart/alternative", {[ "boundary" := "frontier" ]}.
    repeat split; vm_compute; reflexivity.
  - exists "multipart/alternative", {[ "boundary" := "frontier" ]}.
    repeat split; vm_compute; reflexivity.
  - exists "text/html". split; [exists ∅; vm_compute; reflexivity | discriminate].
Defined.

(** A multipart body that stops inside its text/plain part: the read error
    of that part is the result. *)
Lemma readMailBody_read_error_is_final_witness :
  readMailBody (H:=Go.env) (Sample.parsed Scenario.cut_short)
  = ("", Some Go.ErrUnexpectedEOF).
Proof.
  apply (readMailBody_read_error_is_final (H:=Go.env) _ []
           {| PartHeader := {[ "Content-Type" := ["text/plain"] ]};
              PartBody := {| rd_bytes := "A"; rd_err := Some Go.ErrUnexpectedEOF |} |}
           [] Go.ErrNextPartEOF).
  - exists "multipart/mixed", {[ "boundary" := "frontier" ]}.
    repeat split; vm_compute; reflexivity.
  - constructor.
  - exists ∅. vm_compute. reflexivity.
  - reflexivity.
Defined.

(** A text/html mail is refused. *)
Lemma readMailBody_unsupported_witness :
  readMailBody (H:=Go.env) (Sample.parsed Scenario.html_mail)
  = ("", Some errUnsupportedContentType).
Proof.
  apply (readMailBody_unsupported (H:=Go.env) _ "text/html").
  - exists ∅. vm_compute. reflexivity.
  - discriminate.
  - reflexivity.
Defined.

(** The body of a text/plain mail comes out untrimmed. *)
Lemma readMailBody_single_part_witness :
  readMailBody (H:=Go.env) (Sample.parsed (Sample.plain_text "Hi" "  World  "))
  = ("  World  ", None).
Proof.
  apply (readMailBody_single_part (H:=Go.env)
           (Sample.parsed (Sample.plain_text "Hi" "  World  "))).
  exists ∅. vm_compute. reflexivity.
Defined.

(** ** The session after any history *)

Section Reuse.
Context `{Env}.

Lemma run_config cs st :
  config (backend (run cs st)) = config (backend st)
  /\ sub (backend (run cs st)) = sub (backend st).
Proof.
  apply (run_invariant
           (fun st' => config (backend st') = config (backend st)
                       /\ sub (backend st') = sub (backend st))).
  - intros st' HP. exact HP.
  - intros st' t _ HP. exact HP.
  - intros st' m _ _ HP. destruct (sub (backend st') m); exact HP.
  - split; reflexivity.
Qed.

(** X21.  The session stays usable after any history of calls, failed or
    not: a recipient that resolves under the configuration is accepted, and
    a mail that can be read, cut and decoded reaches the publisher under the
    topic the session then holds. *)
Theorem session_stays_usable cs st :
  (forall to t,
      resolves (config (backend st)) to t ->
      Rcpt to (run cs st) = Returns None (set_topic t (run cs st)))
  /\ (forall r msg raw body title,
        reads r msg raw ->
        truncate (TrimSpace raw) (MessageLimit (config (backend st))) = Some body ->
        decoded_subject msg = Ok title ->
        exists m,
          Topic m = topic (session (run cs st))
          /\ Data r (run cs st)
             = Returns (sub (backend st) m)
                 (counted (sub (backend st) m) (log_publish m (run cs st)))).
Proof.
  destruct (run_config cs st) as [Hc Hs]. split.
  - intros to t Hres. apply Rcpt_accepts. rewrite Hc. exact Hres.
  - intros r msg raw body title (b & Hr & Hmsg & Hbody) Htr Hsub.
    rewrite <- Hc in Htr. rewrite <- Hs.
    eexists. split; [|exact (Data_publishes _ _ _ _ _ _ _ Hr Hmsg Hbody Htr Hsub)].
    apply flip_Topic.
Qed.

End Reuse.

(** After a refused recipient and an unreadable stream the next recipient
    is accepted as on a fresh session. *)
Lemma session_stays_usable_witness :
  Rcpt (H:=Go.env) "ntfy-mytopic@ntfy.sh"
    (run (H:=Go.env)
       [Call_Rcpt "mytopic@example.com"; Call_Data Sample.garbage] Sample.idle)
  = Returns None
      (set_topic "mytopic"
         (run (H:=Go.env)
            [Call_Rcpt "mytopic@example.com"; Call_Data Sample.garbage] Sample.idle)).
Proof.
  apply (proj1 (session_stays_usable (H:=Go.env)
                  [Call_Rcpt "mytopic@example.com"; Call_Data Sample.garbage]
                  Sample.idle)).
  exists {| Name := ""; Addr := "ntfy-mytopic@ntfy.sh" |}.
  repeat split; reflexivity.
Defined.
